(** * quantcli.qc_validator: the QuantConnect code validator

    A shallow embedding of [src/quantcli/qc_validator.py] and the
    properties of its line-window heuristics.

    - Python [str] is a sequence of Unicode code points: [text := list N].
    - Python [int] is [Z]; list indexing follows Python (negative indices
      count from the end, out of range raises [IndexError]).
    - The validator instance and the list object behind [self.issues]
      live in an explicit store; every method is a computation in a
      state-and-exception monad over that store. *)

From Stdlib Require Import ZArith NArith List Bool Lia String Ascii DecimalString Sorted.
From stdpp Require Import base option list gmap strings.

#[local] Set Warnings "-clear-no-such-hyp,-register-all".
Local Open Scope Z_scope.

(** ** Text *)

Definition text := list N.

(** A string literal of the source (ASCII only) as code points. *)
Definition str (s : string) : text := N_of_ascii <$> list_ascii_of_string s.
Arguments str _%_string.

(** [a in b] on two [str]: [a] occurs as a contiguous run of [b]. *)
Fixpoint startswith (p s : text) : bool :=
  match p, s with
  | [], _ => true
  | _ :: _, [] => false
  | a :: p', b :: s' => N.eqb a b && startswith p' s'
  end.

Fixpoint contains (p s : text) : bool :=
  startswith p s ||
  match s with
  | [] => false
  | _ :: s' => contains p s'
  end.

(** [code.split('\n')]: always at least one piece. *)
Fixpoint split_lines (s : text) : list text :=
  match s with
  | [] => [[]]
  | c :: s' =>
      if N.eqb c 10 then [] :: split_lines s'
      else match split_lines s' with
           | [] => [[c]]
           | l :: ls => (c :: l) :: ls
           end
  end.

Definition nl : text := [10%N].

(** [f"{n}"] for an [int]. *)
Definition str_of_int (n : Z) : text := str (NilZero.string_of_int (Z.to_int n)).

(** ** Character classes

    [str.isspace] on one code point (CPython's [_PyUnicode_IsWhitespace]);
    [str.strip()] and the regular expression class [\s] both use it. *)
Definition is_space (c : N) : bool :=
  ((9 <=? c) && (c <=? 13) || (28 <=? c) && (c <=? 32) ||
   (c =? 133) || (c =? 160) || (c =? 5760) ||
   (8192 <=? c) && (c <=? 8202) ||
   (c =? 8232) || (c =? 8233) || (c =? 8239) || (c =? 8287) || (c =? 12288))%N.

Definition ascii_alnum (c : N) : bool :=
  ((48 <=? c) && (c <=? 57) || (65 <=? c) && (c <=? 90) || (97 <=? c) && (c <=? 122))%N.

Fixpoint lstrip (s : text) : text :=
  match s with
  | c :: s' => if is_space c then lstrip s' else s
  | [] => []
  end.

Definition rstrip (s : text) : text := rev (lstrip (rev s)).

(** [line.strip()] *)
Definition strip (s : text) : text := rstrip (lstrip s).

(** ** Python lists *)

(** [range(a, b)] *)
Definition range (a b : Z) : list Z :=
  (fun k : nat => a + Z.of_nat k) <$> seq 0 (Z.to_nat (b - a)).

(** [l[k]]: [None] stands for [IndexError]. *)
Definition py_index {A} (l : list A) (k : Z) : option A :=
  if 0 <=? k then l !! Z.to_nat k
  else if - Z.of_nat (length l) <=? k then l !! Z.to_nat (Z.of_nat (length l) + k)
  else None.

(** [enumerate(l, start)] *)
Fixpoint enumerate {A} (start : Z) (l : list A) : list (Z * A) :=
  match l with
  | [] => []
  | x :: l' => (start, x) :: enumerate (start + 1) l'
  end.

(** ** Findings *)

Record ValidationIssue := {
  severity : text;   (* 'error', 'warning', 'info' *)
  line : Z;
  message : text;
  suggestion : text
}.

(** ** The store and the monad of the methods

    [heap] holds the list objects by address, [self_issues] the address
    bound to [self.issues] ([None] before [__init__]), [log] the records
    sent to [self.logger]. *)
Record store := {
  heap : list (list ValidationIssue);
  self_issues : option nat;
  log : list text
}.

Inductive exn := IndexError | AttributeError.

Inductive outcome (A : Type) :=
  | Returns (a : A) (s : store)
  | Raises (e : exn).
Arguments Returns {A} a s.
Arguments Raises {A} e.

Definition M (A : Type) := store -> outcome A.

Definition ret {A} (a : A) : M A := fun s => Returns a s.
Definition raise {A} (e : exn) : M A := fun _ => Raises e.
Definition bind {A B} (m : M A) (k : A -> M B) : M B :=
  fun s => match m s with
           | Returns a s' => k a s'
           | Raises e => Raises e
           end.

Declare Scope py_scope.
Delimit Scope py_scope with py.
Notation "x <- m ;; k" := (bind m (fun x => k))
  (at level 100, m at next level, right associativity) : py_scope.
Notation "m ;; k" := (bind m (fun _ => k))
  (at level 100, right associativity) : py_scope.
Local Open Scope py_scope.

(** [[]]: a new list object. *)
Definition new_list : M nat :=
  fun s => Returns (length (heap s))
             {| heap := heap s ++ [[]]; self_issues := self_issues s; log := log s |}.

(** [self.issues = l] *)
Definition set_self_issues (l : nat) : M unit :=
  fun s => Returns tt {| heap := heap s; self_issues := Some l; log := log s |}.

(** [self.issues] *)
Definition get_self_issues : M nat :=
  fun s => match self_issues s with
           | Some l => Returns l s
           | None => Raises AttributeError
           end.

(** Reading the list object at [l]. *)
Definition contents (l : nat) : M (list ValidationIssue) :=
  fun s => match heap s !! l with
           | Some xs => Returns xs s
           | None => Raises AttributeError
           end.

(** [l.append(x)]: the object at [l] is updated in place. *)
Definition append (l : nat) (x : ValidationIssue) : M unit :=
  fun s => match heap s !! l with
           | Some xs =>
               Returns tt {| heap := <[l := xs ++ [x]]> (heap s);
                             self_issues := self_issues s; log := log s |}
           | None => Raises AttributeError
           end.

(** [self.logger.info(msg)] *)
Definition logger_info (msg : text) : M unit :=
  fun s => Returns tt {| heap := heap s; self_issues := self_issues s;
                         log := log s ++ [msg] |}.

(** [lines[k]] *)
Definition index (lines : list text) (k : Z) : M text :=
  match py_index lines k with
  | Some l => ret l
  | None => raise IndexError
  end.

(** [for x in xs: body] *)
Fixpoint for_each {A} (xs : list A) (body : A -> M unit) : M unit :=
  match xs with
  | [] => ret tt
  | x :: xs' => body x ;; for_each xs' body
  end.

(** The lookback loop of the four checks,
    [for j in range(...): if guard(lines[j-1]): has_guard = True; break],
    over the values [js] of [j]; the result is [has_guard]. *)
Fixpoint scan_guard (guard : text -> bool) (lines : list text) (js : list Z) : M bool :=
  match js with
  | [] => ret false
  | j :: js' =>
      l <- index lines (j - 1) ;;
      if guard l then ret true else scan_guard guard lines js'
  end.

Definition empty_store : store := {| heap := []; self_issues := None; log := [] |}.

(** * quantcli.llm_client

    The OpenAI SDK is outside the repository: what its [create] does
    with a request is a parameter, and so are the Python objects the
    client passes on without looking at them ([value]). The methods are
    modelled as they are called, with arguments by position and by
    keyword, since Python binds them before the body runs. Log records
    are left out. *)
Module LLMClient.

(** [@dataclass class LLMResponse] *)
Record LLMResponse := {
  content : text;
  model : text;
  tokens_used : Z;
  finish_reason : text
}.

(** The attributes [self.model] and [self.api_key] of a client. *)
Record client := {
  self_model : text;
  self_api_key : text
}.

Inductive constructed :=
  | Client (self : client)
  | ValueError
  | ImportError.

(** Truth value of an [Optional[str]]: [None] and [''] are false. *)
Definition truthy (s : option text) : bool :=
  match s with
  | Some (_ :: _) => true
  | _ => false
  end.

Definition default_model : text := str "gpt-4o-2024-11-20".

(** [LLMClient(model, api_key)]; an argument left out is [None].
    [sdk_installed] tells whether [from openai import OpenAI] succeeds,
    [getenv] is [os.getenv('OPENAI_API_KEY')]. *)
Definition __init__ (sdk_installed : bool) (getenv : option text)
    (model_ api_key : option text) : constructed :=
  let model_ := default default_model model_ in
  let api_key := if truthy api_key then api_key else getenv in
  match api_key with
  | Some (c :: key) =>
      if sdk_installed
      then Client {| self_model := model_; self_api_key := c :: key |}
      else ImportError
  | _ => ValueError
  end.

(** What the SDK returns: [response.choices], [choice.message.content]
    (which may be [None]), [choice.finish_reason], [response.model] and
    [response.usage] (which may be [None]) with its [total_tokens]. *)
Record Choice := {
  message_content : option text;
  choice_finish_reason : text
}.

Record ChatCompletion := {
  choices : list Choice;
  completion_model : text;
  usage_total_tokens : option Z
}.

(** What the call of [create] does: it returns a completion, returns
    another object (a stream, under [stream=True]), whose [choices] is an
    [AttributeError], raises an [Exception], or raises a [BaseException]
    that is no [Exception] ([KeyboardInterrupt], [SystemExit]). *)
Inductive api_outcome :=
  | api_returns (response : ChatCompletion)
  | api_returns_other
  | api_raises
  | api_raises_BaseException.

(** The outcome of a call of a method of the client. *)
Inductive result (A : Type) :=
  | returns (a : A)
  | raises_TypeError
  | raises_BaseException.

Arguments returns {A} a.
Arguments raises_TypeError {A}.
Arguments raises_BaseException {A}.

Section Client.

Variable value : Type.

(** The Python objects of a call: strings, lists and dicts with string
    keys (in insertion order) as far as the client builds them, any other
    object as a [value]. *)
Inductive object :=
  | opaque (v : value)
  | a_str (s : text)
  | a_list (items : list object)
  | a_dict (entries : list (string * object)).

(** Whether [len(v)] returns; it raises an [Exception] if not. *)
Variable has_len : value -> bool.

Definition len_returns (o : object) : bool :=
  match o with
  | opaque v => has_len v
  | _ => true
  end.

(** The defaults [1500] and [0.3] of [chat_completion]. *)
Variables default_max_tokens default_temperature : value.

(** The keyword arguments of [self.client.chat.completions.create]. *)
Record request := {
  request_model : text;
  request_messages : object;
  request_max_tokens : object;
  request_temperature : object;
  request_extra : gmap string object
}.

Variable create : request -> api_outcome.

Definition has_key (kwargs : gmap string object) (p : string) : bool :=
  match kwargs !! p with
  | Some _ => true
  | None => false
  end.

(** The argument of the parameter [p], the [i]-th after [self]: given by
    position, or else by keyword. *)
Definition argument (args : list object) (kwargs : gmap string object)
    (i : nat) (p : string) : option object :=
  match args !! i with
  | Some a => Some a
  | None => kwargs !! p
  end.

(** Python's binding of the arguments of a call [self.f( *args, **kwargs)]
    to the parameters [(self, p1, ..., pn, **kwargs)] of [f]. It is a
    [TypeError] ([None]) to give more than [n] arguments by position, or
    a keyword that names [self] or a parameter given by position.
    Otherwise every parameter has its argument, if one was given, and the
    other keywords make up the [kwargs] of [f]. *)
Definition bind_arguments (params : list string) (args : list object)
    (kwargs : gmap string object) : option (list (option object) * gmap string object) :=
  if (length params <? length args)%nat then None
  else if existsb (has_key kwargs) ("self" :: take (length args) params) then None
  else Some (imap (argument args kwargs) params, foldr delete kwargs params).

(** The [try] statement of [chat_completion]; [None] is the result of its
    [except Exception] branch, which a [BaseException] passes. A key
    [model] of [kwargs] repeats a keyword of the call of [create], which
    is a [TypeError] of that call. *)
Definition try_chat_completion (self : client) (messages max_tokens temperature : object)
    (kwargs : gmap string object) : result (option LLMResponse) :=
  if negb (len_returns messages) then returns None
  else if has_key kwargs "model" then returns None
  else
    match create {| request_model := self_model self;
                    request_messages := messages;
                    request_max_tokens := max_tokens;
                    request_temperature := temperature;
                    request_extra := kwargs |} with
    | api_raises_BaseException => raises_BaseException
    | api_raises => returns None
    | api_returns_other => returns None
    | api_returns response =>
        match choices response !! 0%nat with
        | None => returns None
        | Some choice =>
            match message_content choice with
            | None => returns None
            | Some raw =>
                match usage_total_tokens response with
                | None => returns None
                | Some total =>
                    returns (Some {| content := strip raw;
                                     model := completion_model response;
                                     tokens_used := total;
                                     finish_reason := choice_finish_reason choice |})
                end
            end
        end
    end.

(** The call [self.chat_completion( *args, **kwargs)] of
    [def chat_completion(self, messages, max_tokens=1500, temperature=0.3, **kwargs)].
    The binding of the arguments comes before the [try] statement: its
    [TypeError], also that of a call without [messages], is raised to the
    caller. *)
Definition chat_completion (self : client) (args : list object)
    (kwargs : gmap string object) : result (option LLMResponse) :=
  match bind_arguments ["messages"; "max_tokens"; "temperature"]%string args kwargs with
  | Some ([Some messages; max_tokens; temperature], kwargs) =>
      try_chat_completion self messages
        (default (opaque default_max_tokens) max_tokens)
        (default (opaque default_temperature) temperature)
        kwargs
  | _ => raises_TypeError
  end.

(** The call [self.simple_prompt( *args, **kwargs)] of
    [def simple_prompt(self, system_message, user_message, **kwargs)];
    what [self.chat_completion(messages, **kwargs)] raises is raised to
    the caller. An [LLMResponse] is true. *)
Definition simple_prompt (self : client) (args : list object)
    (kwargs : gmap string object) : result (option text) :=
  match bind_arguments ["system_message"; "user_message"]%string args kwargs with
  | Some ([Some system_message; Some user_message], kwargs) =>
      let messages :=
        a_list [ a_dict [("role", a_str (str "system")); ("content", system_message)]%string;
                 a_dict [("role", a_str (str "user")); ("content", user_message)]%string ] in
      match chat_completion self [messages] kwargs with
      | returns (Some response) => returns (Some (content response))
      | returns None => returns None
      | raises_TypeError => raises_TypeError
      | raises_BaseException => raises_BaseException
      end
  | _ => raises_TypeError
  end.

End Client.

End LLMClient.

(** * quantcli.utils: the download of an article

    The [requests] library, the file system and the environment are
    outside the repository. A Python object the code hands on ([value]:
    a URL, a DOI, parsed JSON) is a parameter with its truth value
    ([truth]), its dictionary if it is one ([as_dict]) and its text in an
    f-string ([format]); [get] is the answer of [requests.get] to the
    request of [get_pdf_url_via_unpaywall], [unpaywall_email] is
    [os.getenv("UNPAYWALL_EMAIL")]. What the two requests of
    [download_pdf], [open] and [write] do is described where
    [download_pdf] is; that function is modelled with the records it
    hands to its logger and the calls it makes, in the order of the
    program, since the logging set up by [setup_logging] writes the
    records to [quantcli.log]. *)
Module utils.

Inductive error := AttributeError | OSError | KeyError | IndexError.

Inductive result (A : Type) :=
  | returns (a : A)
  | raises (e : error).
Arguments returns {A} a.
Arguments raises {A} e.

(** What the code reads of a [requests.Response]: whether
    [raise_for_status()] passes, [headers.get('Content-Type')],
    [content], and [json()] ([None] when the body is not JSON, a
    [RequestException] since requests 2.27). *)
Record Response (value : Type) := {
  status_ok : bool;
  content_type : option text;
  content : list N;
  json : option value
}.
Arguments status_ok {value} _.
Arguments content_type {value} _.
Arguments content {value} _.
Arguments json {value} _.

Inductive http_outcome (value : Type) :=
  | http_response (response : Response value)
  | http_raises.
Arguments http_response {value} response.
Arguments http_raises {value}.

(** The first argument of [requests.get]: a string built here or an
    object handed on. *)
Inductive target (value : Type) :=
  | target_text (url : text)
  | target_value (url : value).
Arguments target_text {value} url.
Arguments target_value {value} url.

Record request (value : Type) := {
  request_target : target value;
  request_params : gmap string text;
  request_headers : gmap string text;
  request_allow_redirects : option bool
}.
Arguments request_target {value} _.
Arguments request_params {value} _.
Arguments request_headers {value} _.
Arguments request_allow_redirects {value} _.

(** The file of the handler that [setup_logging] installs: there the
    records of the loggers end up when the commands run. *)
Definition log_file : text := str "quantcli.log".

Inductive level := INFO | WARNING | ERROR.

(** What [download_pdf] does besides writing [save_path]: a record handed
    to the logger [quantcli.utils], a call of [requests.get], the call of
    [get_pdf_url_via_unpaywall] (with the request and the records of
    that function). *)
Inductive event (value : Type) :=
  | logged (l : level) (message : text)
  | called_get (r : request value)
  | called_unpaywall (doi : value) (email : text).
Arguments logged {value} l message.
Arguments called_get {value} r.
Arguments called_unpaywall {value} doi email.

(** What [download_pdf] raises: an error of [get_pdf_url_via_unpaywall];
    an exception of [requests.get] that is no [RequestException] (such as
    urllib3's [LocationParseError]); what [open] raises ([OSError], or
    [ValueError] for a path with a NUL character); the [OSError] of
    [write] or of closing the file. *)
Inductive failure :=
  | failed_unpaywall (e : error)
  | failed_get
  | failed_open
  | failed_write.

Inductive ending (A : Type) :=
  | completes (a : A)
  | fails (f : failure).
Arguments completes {A} a.
Arguments fails {A} f.

Section Download.

Variable value : Type.
Variable truth : value -> bool.
Variable as_dict : value -> option (gmap string value).
Variable format : value -> text.
Variable get : request value -> http_outcome value.
Variable open_wb : text -> bool.
Variable unpaywall_email : option text.

(** Truth value of [d.get(key)] and of an optional argument: a missing
    key or [None] is false. *)
Definition truthy (v : option value) : bool :=
  match v with
  | Some x => truth x
  | None => false
  end.

Definition get_pdf_url_via_unpaywall (doi : value) (email : text) : result (option value) :=
  let api_url := str "https://api.unpaywall.org/v2/" ++ format doi in
  let params : gmap string text := {[ "email" := email ]} in
  match get {| request_target := target_text api_url;
               request_params := params;
               request_headers := ∅;
               request_allow_redirects := None |} with
  | http_raises => returns None
  | http_response response =>
      if negb (status_ok response) then returns None
      else
        match json response with
        | None => returns None
        | Some data =>
            match as_dict data with
            | None => raises AttributeError
            | Some d =>
                if truthy (d !! "is_oa") then
                  match d !! "best_oa_location" with
                  | None => returns None
                  | Some location =>
                      if truth location then
                        match as_dict location with
                        | None => raises AttributeError
                        | Some l =>
                            if truthy (l !! "url_for_pdf")
                            then returns (l !! "url_for_pdf")
                            else returns None
                        end
                      else returns None
                  end
                else returns None
            end
        end
  end.

Definition user_agent : gmap string text :=
  {[ "User-Agent" := str "QuantCLI/1.0 (mailto:your.email@example.com)" ]}.

(** The calls of [requests.get] of [download_pdf], each with its
    [raise_for_status()]: for the article's URL ([get_article]) and for
    the URL from Unpaywall ([get_pdf]). [None] is an exception that is no
    [RequestException]; [error_text] is the text of the
    [RequestException] of a request in an f-string. *)
Variables get_article get_pdf : request value -> option (http_outcome value).
Variable error_text : request value -> text.

(** [open_wb] tells whether [open(path, 'wb')] returns; [write_fails]
    tells whether writing the bytes to the file fails, and after how
    many bytes. *)
Variable write_fails : text -> list N -> option nat.

(** [with open(save_path, 'wb') as f: f.write(content)]: [open] empties
    the file; a failed write leaves the bytes written so far. *)
Definition save (save_path : text) (body : list N) (files : gmap text (list N))
  : gmap text (list N) * ending unit :=
  if open_wb save_path then
    match write_fails save_path body with
    | None => (<[save_path := body]> files, completes tt)
    | Some n => (<[save_path := take n body]> files, fails failed_write)
    end
  else (files, fails failed_open).

(** [download_pdf(article_url, save_path, doi)]: the events of the call,
    the files after it, and its result. The [except] clause takes a
    [RequestException], which an error status is too, and nothing
    else. *)
Definition download_pdf (article_url : value) (save_path : text) (doi : option value)
    (files : gmap text (list N))
  : list (event value) * gmap text (list N) * ending bool :=
  let direct := {| request_target := target_value article_url;
                   request_params := ∅;
                   request_headers := user_agent;
                   request_allow_redirects := Some true |} in
  let events :=
    [ logged INFO (str "Attempting to download PDF from URL: " ++ format article_url);
      called_get direct ] in
  let failed (r : request value) (events : list (event value)) :=
    (events ++ [logged ERROR (str "Failed to download PDF: " ++ error_text r)],
     files, completes false) in
  match get_article direct with
  | None => (events, files, fails failed_get)
  | Some http_raises => failed direct events
  | Some (http_response response) =>
      if negb (status_ok response) then failed direct events
      else if contains (str "application/pdf") (default [] (content_type response))
      then
        match save save_path (content response) files with
        | (files', completes _) =>
            (events ++ [logged INFO (str "PDF downloaded successfully to " ++ save_path)],
             files', completes true)
        | (files', fails f) => (events, files', fails f)
        end
      else
        let events :=
          events ++
          [logged INFO (str "Direct download unsuccessful. Attempting to use Unpaywall.")] in
        match doi with
        | Some doi_ =>
            if truth doi_ then
              let email := default (str "your.email@example.com") unpaywall_email in
              let events := events ++ [called_unpaywall doi_ email] in
              let no_pdf :=
                (events ++ [logged WARNING (str "No PDF available via Unpaywall.")],
                 files, completes false) in
              match get_pdf_url_via_unpaywall doi_ email with
              | raises e => (events, files, fails (failed_unpaywall e))
              | returns None => no_pdf
              | returns (Some pdf_url) =>
                  if truth pdf_url then
                    let second := {| request_target := target_value pdf_url;
                                     request_params := ∅;
                                     request_headers := user_agent;
                                     request_allow_redirects := None |} in
                    let events := events ++ [called_get second] in
                    match get_pdf second with
                    | None => (events, files, fails failed_get)
                    | Some http_raises => failed second events
                    | Some (http_response response') =>
                        if negb (status_ok response') then failed second events
                        else
                          match save save_path (content response') files with
                          | (files', completes _) =>
                              (events ++
                               [logged INFO
                                  (str "PDF downloaded successfully via Unpaywall to " ++
                                   save_path)],
                               files', completes true)
                          | (files', fails f) => (events, files', fails f)
                          end
                    end
                  else no_pdf
              end
            else (events, files, completes false)
        | None => (events, files, completes false)
        end
  end.

End Download.

End utils.

(** * quantcli.cli: the commands on the list of articles

    [articles.json] is read as [search] wrote it, a list of
    dictionaries, or is missing ([None]); [click.echo] adds a line to
    [out], [webbrowser.open] adds its argument to [opened]; [confirm] is
    the answer to [click.confirm] ([None] when there is no input:
    [click.Abort]), [makedirs_ok] tells whether
    [os.makedirs(DOWNLOADS_DIR, exist_ok=True)] returns, [sep] is
    [os.sep]; [files] holds the files that the commands open, under the
    paths as the program spells them. The commands are modelled as the
    functions that click calls with the parsed [article_id]. *)
Module cli.

Record world (value : Type) := {
  articles_file : option (list (gmap string value));
  files : gmap text (list N);
  out : list text;
  opened : list value
}.
Arguments articles_file {value} _.
Arguments files {value} _.
Arguments out {value} _.
Arguments opened {value} _.

Definition DOWNLOADS_DIR : text := str "downloads".

(** What [download] does outside the console, the browser and
    [save_path]: it makes the directory, and then come the events of
    [download_pdf]. *)
Inductive effect (value : Type) :=
  | makedirs (path : text)
  | of_download_pdf (e : utils.event value).
Arguments makedirs {value} path.
Arguments of_download_pdf {value} e.

(** How [download] ends: it returns, or raises an error of its own (the
    [OSError] of [os.makedirs], the [KeyError] of [article["URL"]]), what
    [download_pdf] raises, or the [click.Abort] of [click.confirm]. *)
Inductive stop :=
  | returned
  | raised (e : utils.error)
  | raised_in_download_pdf (f : utils.failure)
  | aborted.

Section Commands.

Variable value : Type.
Variable truth : value -> bool.
Variable as_dict : value -> option (gmap string value).
Variable format : value -> text.
Variable get : utils.request value -> utils.http_outcome value.
Variable open_wb : text -> bool.
Variable unpaywall_email : option text.
Variables get_article get_pdf : utils.request value -> option (utils.http_outcome value).
Variable error_text : utils.request value -> text.
Variable write_fails : text -> list N -> option nat.
Variable confirm : option bool.
Variable makedirs_ok : bool.
Variable sep : text.

Definition echo (message_ : text) (w : world value) : world value :=
  {| articles_file := articles_file w; files := files w;
     out := out w ++ [message_]; opened := opened w |}.

Definition webbrowser_open (url : value) (w : world value) : world value :=
  {| articles_file := articles_file w; files := files w;
     out := out w; opened := opened w ++ [url] |}.

(** [f"{idx}: {article['title']} by {article['authors']}{published}"] *)
Definition article_line (idx : Z) (article : gmap string value) : utils.result text :=
  let published :=
    match article !! "published" with
    | Some p => if truth p then str " (" ++ format p ++ str ")" else []
    | None => []
    end in
  match article !! "title", article !! "authors" with
  | Some title, Some authors =>
      utils.returns (str_of_int idx ++ str ": " ++ format title ++ str " by " ++
                     format authors ++ published)
  | _, _ => utils.raises utils.KeyError
  end.

(** [for idx, article in enumerate(articles, 1): click.echo(...)] *)
Fixpoint echo_articles (numbered : list (Z * gmap string value)) (w : world value)
  : world value * utils.result unit :=
  match numbered with
  | [] => (w, utils.returns tt)
  | (idx, article) :: rest =>
      match article_line idx article with
      | utils.returns line_ => echo_articles rest (echo line_ w)
      | utils.raises e => (w, utils.raises e)
      end
  end.

(** The command [list]. *)
Definition list_ (w : world value) : world value * utils.result unit :=
  match articles_file w with
  | None => (echo (str "No articles found. Please perform a search first.") w, utils.returns tt)
  | Some [] => (echo (str "No articles found in the current search.") w, utils.returns tt)
  | Some articles => echo_articles (enumerate 1 articles) (echo (str "Articles:") w)
  end.

Definition open_article (article_id : Z) (w : world value) : world value * utils.result unit :=
  match articles_file w with
  | None => (echo (str "No articles found. Please perform a search first.") w, utils.returns tt)
  | Some articles =>
      if (article_id >? Z.of_nat (length articles)) || (article_id <? 1)
      then (echo (str "Article with ID " ++ str_of_int article_id ++ str " not found.") w,
            utils.returns tt)
      else
        match py_index articles (article_id - 1) with
        | None => (w, utils.raises utils.IndexError)
        | Some article =>
            match article !! "URL" with
            | None => (w, utils.raises utils.KeyError)
            | Some url =>
                (echo (str "Opened article URL: " ++ format url) (webbrowser_open url w),
                 utils.returns tt)
            end
        end
  end.

(** The command [download]: the world after it, what it did outside the
    world, and how it ended. *)
Definition download (article_id : Z) (w : world value)
  : world value * list (effect value) * stop :=
  match articles_file w with
  | None =>
      (echo (str "No articles found. Please perform a search first.") w, [], returned)
  | Some articles =>
      if (article_id >? Z.of_nat (length articles)) || (article_id <? 1)
      then (echo (str "Article with ID " ++ str_of_int article_id ++ str " not found.") w,
            [], returned)
      else
        match py_index articles (article_id - 1) with
        | None => (w, [], raised utils.IndexError)
        | Some article =>
            let filename := str "article_" ++ str_of_int article_id ++ str ".pdf" in
            let save_path := DOWNLOADS_DIR ++ sep ++ filename in
            if negb makedirs_ok then (w, [], raised utils.OSError)
            else
              let doi := article !! "DOI" in
              match article !! "URL" with
              | None => (w, [makedirs DOWNLOADS_DIR], raised utils.KeyError)
              | Some url =>
                  let '(events, files', success) :=
                    utils.download_pdf value truth as_dict format get open_wb
                      unpaywall_email get_article get_pdf error_text write_fails
                      url save_path doi (files w) in
                  let effects := makedirs DOWNLOADS_DIR :: (of_download_pdf <$> events) in
                  let w' := {| articles_file := articles_file w; files := files';
                               out := out w; opened := opened w |} in
                  match success with
                  | utils.fails f => (w', effects, raised_in_download_pdf f)
                  | utils.completes true =>
                      (echo (str "Article downloaded to " ++ save_path) w', effects, returned)
                  | utils.completes false =>
                      let w'' :=
                        echo (str "Failed to download the PDF. You can open the article's webpage instead.") w' in
                      match confirm with
                      | None => (w'', effects, aborted)
                      | Some true =>
                          (echo (str "Opened the article URL in your default web browser.")
                             (webbrowser_open url w''),
                           effects, returned)
                      | Some false => (w'', effects, returned)
                      end
                  end
              end
        end
  end.

End Commands.

End cli.

(** A Unicode database with no alphanumeric character outside ASCII,
    for running the validator on ASCII texts. *)
Definition ascii_only : N -> bool := fun _ => false.

(** Sample inputs. *)
Definition six_lines : text :=
  str "a = 1" ++ nl ++ str "b = 2" ++ nl ++ str "c = 3" ++ nl ++
  str "d = 4" ++ nl ++ str "e = 5" ++ nl ++ str "r = a / b".

Definition info_issue : ValidationIssue :=
  {| severity := str "info"; line := 3; message := str "i"; suggestion := str "si" |}.

Definition mixed_issues : list ValidationIssue :=
  [ {| severity := str "warning"; line := 2; message := str "w"; suggestion := str "sw" |};
    info_issue;
    {| severity := str "error"; line := 1; message := str "e"; suggestion := str "se" |} ].

Definition mixed_store : store :=
  {| heap := [mixed_issues]; self_issues := Some 0%nat; log := [] |}.

Section Validator.

(** [str.isalnum] on one code point outside ASCII is given by the Unicode
    database of the interpreter; the development is parametric in it. *)
Variable unicode_alnum : N -> bool.

(** The regular expression class [\w] on [str] patterns. *)
Definition is_word (c : N) : bool :=
  if (c <? 128)%N then ascii_alnum c || (c =? 95)%N else unicode_alnum c.

(** ** The regular expressions of the validator

    [re.search] tries the pattern at every position from the left; the
    pattern sees the character before the position (for [\b]) and the
    rest of the line. *)
Fixpoint re_search {A} (pattern : option N -> text -> option A)
    (prev : option N) (s : text) : option A :=
  match pattern prev s with
  | Some m => Some m
  | None =>
      match s with
      | [] => None
      | c :: s' => re_search pattern (Some c) s'
      end
  end.

(** Greedy [(\w+)] with nothing after it. *)
Fixpoint word_run (s : text) : text :=
  match s with
  | c :: s' => if is_word c then c :: word_run s' else []
  | [] => []
  end.

Definition word_plus (s : text) : option text :=
  match word_run s with
  | [] => None
  | w => Some w
  end.

(** [\s*(\w+)]: greedy [\s*], giving characters back when [(\w+)] fails. *)
Fixpoint spaces_word (s : text) : option text :=
  match s with
  | c :: s' =>
      if is_space c then
        match spaces_word s' with
        | Some w => Some w
        | None => word_plus s
        end
      else word_plus s
  | [] => None
  end.

(** [/\s*(\w+)] at one position; the result is [group(1)]. *)
Definition divisor_pattern (_ : option N) (s : text) : option text :=
  match s with
  | c :: s' => if (c =? 47)%N then spaces_word s' else None
  | [] => None
  end.

(** [\s*\(] *)
Fixpoint spaces_paren (s : text) : bool :=
  match s with
  | c :: s' =>
      if is_space c then spaces_paren s' || (c =? 40)%N
      else (c =? 40)%N
  | [] => false
  end.

(** [\b]: exactly one side of the position is a word character. *)
Definition word_boundary (prev : option N) (s : text) : bool :=
  xorb (from_option is_word false prev) (from_option is_word false (head s)).

(** [\b(max|min)\s*\(] at one position. *)
Definition max_min_pattern (prev : option N) (s : text) : option unit :=
  if word_boundary prev s &&
     (startswith (str "max") s && spaces_paren (drop 3 s) ||
      startswith (str "min") s && spaces_paren (drop 3 s))
  then Some tt else None.

(** [(\w+)suffix]: greedy [\w+], giving characters back until [suffix]
    follows. *)
Fixpoint word_then (suffix s : text) : option text :=
  match s with
  | c :: s' =>
      if is_word c then
        match word_then suffix s' with
        | Some w => Some (c :: w)
        | None => if startswith suffix s' then Some [c] else None
        end
      else None
  | [] => None
  end.

(** [(\w+)\.Current\.Value] at one position; the result is [group(1)].
    [\w+\.Current\.Value] matches at the same positions. *)
Definition current_value_pattern (_ : option N) (s : text) : option text :=
  word_then (str ".Current.Value") s.

(** [(>|<|>=|<=|==|!=)] at one position. *)
Definition comparison_pattern (_ : option N) (s : text) : option unit :=
  if startswith (str ">") s || startswith (str "<") s ||
     startswith (str ">=") s || startswith (str "<=") s ||
     startswith (str "==") s || startswith (str "!=") s
  then Some tt else None.

(** ** class QuantConnectValidator *)

Definition __init__ : M unit :=
  l <- new_list ;;
  set_self_issues l.

(** ['indicators["high"]'] and ['indicators["low"]'] *)
Definition high_literal : text := str "indicators[" ++ [34%N] ++ str "high" ++ [34%N] ++ str "]".
Definition low_literal : text := str "indicators[" ++ [34%N] ++ str "low" ++ [34%N] ++ str "]".

(** [line.strip().startswith('#')] *)
Definition is_comment (line_ : text) : bool := startswith (str "#") (strip line_).

(** The guard conditions of the lookback loops, on the line [lines[j-1]]. *)
Definition zero_guard (l : text) : bool :=
  contains (str "if") l && (contains (str "> 0") l || contains (str "<= 0") l).

Definition none_guard (l : text) : bool :=
  contains (str "is None") l || contains (str "is not None") l.

Definition ready_guard (name l : text) : bool :=
  contains (name ++ str ".IsReady") l.

Definition _check_division_operations (lines : list text) : M unit :=
  for_each (enumerate 1 lines) (fun '(i, line_) =>
    if contains (str "/") line_ && negb (contains (str "//") line_) &&
       negb (is_comment line_)
    then
      has_guard <- scan_guard zero_guard lines (range (Z.max 0 (i - 5)) i) ;;
      if negb has_guard && negb (contains (str "positionSize") line_) &&
         negb (contains (str "Portfolio") line_)
      then
        match re_search divisor_pattern None line_ with
        | Some divisor =>
            issues <- get_self_issues ;;
            append issues
              {| severity := str "warning";
                 line := i;
                 message := str "Division by '" ++ divisor ++ str "' without zero check";
                 suggestion := str "Add check: if " ++ divisor ++ str " <= 0: continue" |}
        | None => ret tt
        end
      else ret tt
    else ret tt).

Definition _check_max_min_operations (lines : list text) : M unit :=
  for_each (enumerate 1 lines) (fun '(i, line_) =>
    if bool_decide (is_Some (re_search max_min_pattern None line_)) then
      if contains (str "indicators[") line_ || contains (str "self.") line_ then
        has_guard <- scan_guard none_guard lines (range (Z.max 0 (i - 5)) i) ;;
        if negb has_guard then
          issues <- get_self_issues ;;
          append issues
            {| severity := str "error";
               line := i;
               message := str "max/min operation on potentially None value";
               suggestion := str "Add None check before max/min operation" |}
        else ret tt
      else ret tt
    else ret tt).

Definition _check_indicator_usage (lines : list text) : M unit :=
  for_each (enumerate 1 lines) (fun '(i, line_) =>
    if bool_decide (is_Some (re_search current_value_pattern None line_)) &&
       negb (is_comment line_)
    then
      has_ready_check <-
        match re_search current_value_pattern None line_ with
        | Some name =>
            scan_guard (ready_guard name) lines (range (Z.max 0 (i - 10)) i)
        | None => ret false
        end ;;
      if negb has_ready_check then
        issues <- get_self_issues ;;
        append issues
          {| severity := str "error";
             line := i;
             message := str "Indicator value used without IsReady check";
             suggestion := str "Add: if not indicator.IsReady: continue" |}
      else ret tt
    else ret tt).

Definition _check_none_comparisons (lines : list text) : M unit :=
  for_each (enumerate 1 lines) (fun '(i, line_) =>
    if bool_decide (is_Some (re_search comparison_pattern None line_)) &&
       (contains (str "indicators[") line_ || contains (str "self.") line_)
    then
      if negb (contains (str "is None") line_) &&
         negb (contains (str "is not None") line_)
      then
        has_guard <- scan_guard none_guard lines (range (Z.max 0 (i - 5)) i) ;;
        if negb has_guard && contains high_literal line_ ||
           contains low_literal line_
        then
          issues <- get_self_issues ;;
          append issues
            {| severity := str "error";
               line := i;
               message := str "Comparison with potentially None value";
               suggestion := str "Add None check before comparison" |}
        else ret tt
      else ret tt
    else ret tt).

Definition _check_portfolio_access (lines : list text) : M unit :=
  for_each (enumerate 1 lines) (fun '(i, line_) =>
    if contains (str "self.Portfolio[") line_ && negb (contains (str "Invested") line_)
    then ret tt
    else ret tt).

(** The result is the list object bound to [self.issues]. *)
Definition validate (code : text) : M nat :=
  fresh_list <- new_list ;;
  set_self_issues fresh_list ;;
  let lines := split_lines code in
  _check_division_operations lines ;;
  _check_max_min_operations lines ;;
  _check_indicator_usage lines ;;
  _check_none_comparisons lines ;;
  _check_portfolio_access lines ;;
  issues <- get_self_issues ;;
  found <- contents issues ;;
  logger_info (str "Validation complete. Found " ++
               str_of_int (Z.of_nat (length found)) ++ str " issues.") ;;
  get_self_issues.

Definition is_error (issue : ValidationIssue) : bool :=
  bool_decide (severity issue = str "error").

Definition is_warning (issue : ValidationIssue) : bool :=
  bool_decide (severity issue = str "warning").

Definition has_errors : M bool :=
  l <- get_self_issues ;;
  issues <- contents l ;;
  ret (existsb is_error issues).

Definition has_warnings : M bool :=
  l <- get_self_issues ;;
  issues <- contents l ;;
  ret (existsb is_warning issues).

(** [sum(1 for issue in self.issues if ...)] *)
Definition get_error_count : M Z :=
  l <- get_self_issues ;;
  issues <- contents l ;;
  ret (foldr Z.add 0 ((fun _ => 1) <$> filter is_error issues)).

Definition get_warning_count : M Z :=
  l <- get_self_issues ;;
  issues <- contents l ;;
  ret (foldr Z.add 0 ((fun _ => 1) <$> filter is_warning issues)).

(** U+2705 and U+2192, the two characters of the report outside ASCII. *)
Definition check_mark : text := [9989%N].
Definition arrow : text := [8594%N].

Definition no_issues_message : text := check_mark ++ str " No validation issues found".

(** One turn of [for issue in ...: report += ...; report += ...]. *)
Definition add_issue (report : text) (issue : ValidationIssue) : text :=
  (report ++ (str "  Line " ++ str_of_int (line issue) ++ str ": " ++ message issue ++ nl))
  ++ (str "    " ++ arrow ++ str " " ++ suggestion issue ++ nl ++ nl).

Definition format_report : M text :=
  l <- get_self_issues ;;
  issues <- contents l ;;
  match issues with
  | [] => ret no_issues_message
  | _ :: _ =>
      let report := str "Found " ++ str_of_int (Z.of_nat (length issues)) ++
                    str " validation issues:" ++ nl ++ nl in
      let errors := filter is_error issues in
      let warnings := filter is_warning issues in
      let report :=
        match errors with
        | [] => report
        | _ :: _ => fold_left add_issue errors (report ++ (str "ERRORS:" ++ nl))
        end in
      let report :=
        match warnings with
        | [] => report
        | _ :: _ => fold_left add_issue warnings (report ++ (str "WARNINGS:" ++ nl))
        end in
      ret report
  end.

(** ** What the methods compute

    The definitions below describe the effect of the methods as values;
    the lemmas of the next part relate them to the methods. *)

(** Line [i] of the input, lines numbered from 1. *)
Definition line_at (lines : list text) (i : Z) : option text :=
  if 1 <=? i then lines !! Z.to_nat (i - 1) else None.

(** The lines read by the lookback loop of line [i] with window [w], in
    the order of the loop. *)
Definition examined (lines : list text) (w i : Z) : list text :=
  omap (fun j => py_index lines (j - 1)) (range (Z.max 0 (i - w)) i).

(** The (at most [w]) lines strictly above line [i]. *)
Definition lines_above (lines : list text) (w i : Z) : list text :=
  omap (line_at lines) (range (i - w) i).

(** [m] appends [found] to the list object bound to [self.issues] and
    changes nothing else. *)
Definition appends (m : M unit) (found : list ValidationIssue) : Prop :=
  forall s l old, self_issues s = Some l -> heap s !! l = Some old ->
    m s = Returns tt {| heap := <[l := old ++ found]> (heap s);
                        self_issues := Some l; log := log s |}.

(** The findings of one check on a newly constructed validator; [None]
    when the check raises. *)
Definition emitted (check : M unit) : option (list ValidationIssue) :=
  match (__init__ ;; check ;; l <- get_self_issues ;; contents l) empty_store with
  | Returns found _ => Some found
  | Raises _ => None
  end.

Definition division_issue (i : Z) (divisor : text) : ValidationIssue :=
  {| severity := str "warning";
     line := i;
     message := str "Division by '" ++ divisor ++ str "' without zero check";
     suggestion := str "Add check: " ++ (str "if " ++ divisor ++ str " <= 0: continue") |}.

Definition max_min_issue (i : Z) : ValidationIssue :=
  {| severity := str "error";
     line := i;
     message := str "max/min operation on potentially None value";
     suggestion := str "Add None check before max/min operation" |}.

Definition indicator_issue (i : Z) : ValidationIssue :=
  {| severity := str "error";
     line := i;
     message := str "Indicator value used without IsReady check";
     suggestion := str "Add: " ++ str "if not indicator.IsReady: continue" |}.

Definition none_issue (i : Z) : ValidationIssue :=
  {| severity := str "error";
     line := i;
     message := str "Comparison with potentially None value";
     suggestion := str "Add None check before comparison" |}.

(** The triggers of the four checks on one line. *)
Definition division_trigger (line_ : text) : bool :=
  contains (str "/") line_ && negb (contains (str "//") line_) && negb (is_comment line_).

Definition max_min_trigger (line_ : text) : bool :=
  bool_decide (is_Some (re_search max_min_pattern None line_)) &&
  (contains (str "indicators[") line_ || contains (str "self.") line_).

Definition indicator_trigger (line_ : text) : bool :=
  bool_decide (is_Some (re_search current_value_pattern None line_)) &&
  negb (is_comment line_).

Definition none_trigger (line_ : text) : bool :=
  bool_decide (is_Some (re_search comparison_pattern None line_)) &&
  (contains (str "indicators[") line_ || contains (str "self.") line_) &&
  negb (contains (str "is None") line_) && negb (contains (str "is not None") line_).

(** What each check appends for line [i]. *)
Definition division_line (lines : list text) (i : Z) (line_ : text) : list ValidationIssue :=
  if division_trigger line_ && negb (existsb zero_guard (examined lines 5 i)) &&
     negb (contains (str "positionSize") line_) && negb (contains (str "Portfolio") line_)
  then match re_search divisor_pattern None line_ with
       | Some divisor => [division_issue i divisor]
       | None => []
       end
  else [].

Definition max_min_line (lines : list text) (i : Z) (line_ : text) : list ValidationIssue :=
  if max_min_trigger line_ && negb (existsb none_guard (examined lines 5 i))
  then [max_min_issue i] else [].

Definition indicator_line (lines : list text) (i : Z) (line_ : text) : list ValidationIssue :=
  if indicator_trigger line_ then
    match re_search current_value_pattern None line_ with
    | Some name =>
        if existsb (ready_guard name) (examined lines 10 i) then [] else [indicator_issue i]
    | None => [indicator_issue i]
    end
  else [].

Definition none_line (lines : list text) (i : Z) (line_ : text) : list ValidationIssue :=
  if none_trigger line_ &&
     (negb (existsb none_guard (examined lines 5 i)) && contains high_literal line_ ||
      contains low_literal line_)
  then [none_issue i] else [].

Definition per_line (f : list text -> Z -> text -> list ValidationIssue)
    (lines : list text) : list ValidationIssue :=
  enumerate 1 lines ≫= (fun p => f lines p.1 p.2).

(** What one call of [validate] leaves in the list it returns. *)
Definition findings (code : text) : list ValidationIssue :=
  let lines := split_lines code in
  per_line division_line lines ++ per_line max_min_line lines ++
  per_line indicator_line lines ++ per_line none_line lines.

Definition complete_message (code : text) : text :=
  str "Validation complete. Found " ++
  str_of_int (Z.of_nat (length (findings code))) ++ str " issues.".

(** The report: its header and its two sections. *)
Definition report_header (n : nat) : text :=
  str "Found " ++ str_of_int (Z.of_nat n) ++ str " validation issues:" ++ nl ++ nl.

Definition report_entry (issue : ValidationIssue) : text :=
  str "  Line " ++ str_of_int (line issue) ++ str ": " ++ message issue ++ nl ++
  str "    " ++ arrow ++ str " " ++ suggestion issue ++ nl ++ nl.

Definition report_section (title : text) (items : list ValidationIssue) : text :=
  match items with
  | [] => []
  | _ :: _ => title ++ nl ++ concat (report_entry <$> items)
  end.

Definition report_sections (issues : list ValidationIssue) : text :=
  report_section (str "ERRORS:") (filter is_error issues) ++
  report_section (str "WARNINGS:") (filter is_warning issues).

(** The condition under which the division check reports line [i], with
    [divisor] the name after the first [/] that has one. *)
Definition division_condition (lines : list text) (i : Z) (line_ divisor : text) : Prop :=
  line_at lines i = Some line_ /\
  contains (str "/") line_ = true /\ contains (str "//") line_ = false /\
  is_comment line_ = false /\
  existsb zero_guard (lines_above lines 5 i) = false /\
  contains (str "positionSize") line_ = false /\
  contains (str "Portfolio") line_ = false /\
  re_search divisor_pattern None line_ = Some divisor.

(** ** The division trigger in the words of the specification

    "a line contains a [/] character that is not part of [//]": some [/]
    of the line has no [/] next to it. *)
Fixpoint lone_slash_from (after_slash : bool) (s : text) : bool :=
  match s with
  | [] => false
  | c :: s' =>
      if (c =? 47)%N then
        negb after_slash && negb (startswith (str "/") s') || lone_slash_from true s'
      else lone_slash_from false s'
  end.

Definition lone_slash (s : text) : bool := lone_slash_from false s.

(** The condition of the specification for a division finding on line
    [i]: the trigger above, no comment, no guard on the five lines
    strictly above, no exempt name, and a divisor after some [/]. *)
Definition division_condition_as_specified (lines : list text) (i : Z) : bool :=
  match line_at lines i with
  | Some line_ =>
      lone_slash line_ && negb (is_comment line_) &&
      negb (existsb zero_guard (lines_above lines 5 i)) &&
      negb (contains (str "positionSize") line_) && negb (contains (str "Portfolio") line_) &&
      bool_decide (is_Some (re_search divisor_pattern None line_))
  | None => false
  end.

(** ** Ranges, indexing and enumeration *)

Lemma elem_of_range a b j : j ∈ range a b <-> a <= j < b.
Proof.
  unfold range. rewrite list_elem_of_fmap. split.
  - intros (k & -> & Hk). apply elem_of_seq in Hk. lia.
  - intros Hj. exists (Z.to_nat (j - a)). split; [lia|].
    apply elem_of_seq. lia.
Qed.

Lemma range_nil a b : b <= a -> range a b = [].
Proof. intros Hab. unfold range. by replace (Z.to_nat (b - a)) with 0%nat by lia. Qed.

Lemma range_cons a b : a < b -> range a b = a :: range (a + 1) b.
Proof.
  intros Hab. unfold range.
  replace (Z.to_nat (b - a)) with (S (Z.to_nat (b - (a + 1)))) by lia.
  cbn [seq fmap list_fmap]. f_equal; [lia|].
  rewrite <- fmap_S_seq, <- list_fmap_compose.
  apply list_fmap_ext. intros _ k _. simpl. lia.
Qed.

Lemma range_app a b c : a <= b <= c -> range a c = range a b ++ range b c.
Proof.
  intros [Hab Hbc]. remember (Z.to_nat (b - a)) as n eqn:Hn.
  revert a Hab Hn. induction n as [|n IH]; intros a Hab Hn.
  - replace a with b by lia. by rewrite (range_nil b b) by lia.
  - rewrite (range_cons a c), (range_cons a b) by lia.
    simpl. f_equal. apply IH; lia.
Qed.

Lemma omap_ext_in {A B} (f g : A -> option B) (l : list A) :
  (forall x, x ∈ l -> f x = g x) -> omap f l = omap g l.
Proof.
  induction l as [|x l IH]; intros Hfg; [done|].
  cbn [omap list_omap]. rewrite (Hfg x) by left.
  rewrite IH; [done|]. intros y Hy. apply Hfg. by right.
Qed.

Lemma omap_none {A B} (f : A -> option B) (l : list A) :
  (forall x, x ∈ l -> f x = None) -> omap f l = [].
Proof.
  induction l as [|x l IH]; intros Hf; [done|].
  cbn [omap list_omap]. rewrite (Hf x) by left.
  apply IH. intros y Hy. apply Hf. by right.
Qed.

Lemma py_index_is_Some {A} (l : list A) (k : Z) :
  - Z.of_nat (length l) <= k < Z.of_nat (length l) -> is_Some (py_index l k).
Proof.
  intros Hk. unfold py_index.
  destruct (Z.leb_spec 0 k).
  - apply lookup_lt_is_Some. lia.
  - destruct (Z.leb_spec (- Z.of_nat (length l)) k); [|lia].
    apply lookup_lt_is_Some. lia.
Qed.

Lemma py_index_last {A} (l : list A) : py_index l (0 - 1) = last l.
Proof.
  unfold py_index. simpl (0 <=? 0 - 1). cbv iota.
  rewrite last_lookup. destruct l as [|x l]; [done|].
  destruct (Z.leb_spec (- Z.of_nat (length (x :: l))) (0 - 1)) as [_|Hlt].
  - f_equal. simpl length. lia.
  - simpl length in Hlt. lia.
Qed.

Lemma py_index_line_at lines j : 1 <= j -> py_index lines (j - 1) = line_at lines j.
Proof.
  intros Hj. unfold py_index, line_at.
  destruct (Z.leb_spec 0 (j - 1)); [|lia].
  by destruct (Z.leb_spec 1 j); [|lia].
Qed.

Lemma line_at_below lines j : j < 1 -> line_at lines j = None.
Proof. intros Hj. unfold line_at. by destruct (Z.leb_spec 1 j); [lia|]. Qed.

Lemma line_at_bounds lines i line_ :
  line_at lines i = Some line_ -> 1 <= i <= Z.of_nat (length lines).
Proof.
  unfold line_at. destruct (Z.leb_spec 1 i); [|done].
  intros Hl%lookup_lt_Some. lia.
Qed.

Lemma elem_of_enumerate {A} (a : Z) (l : list A) i x :
  (i, x) ∈ enumerate a l <-> a <= i /\ l !! Z.to_nat (i - a) = Some x.
Proof.
  revert a. induction l as [|y l IH]; intros a; simpl.
  - rewrite elem_of_nil. naive_solver.
  - rewrite elem_of_cons, IH. split.
    + intros [[= -> ->]|[Hle Hx]].
      * split; [lia|]. by replace (Z.to_nat (a - a)) with 0%nat by lia.
      * split; [lia|].
        by replace (Z.to_nat (i - a)) with (S (Z.to_nat (i - (a + 1)))) by lia.
    + intros [Hle Hx]. destruct (decide (i = a)) as [->|Hne].
      * left. replace (Z.to_nat (a - a)) with 0%nat in Hx by lia.
        simpl in Hx. by injection Hx as ->.
      * right. split; [lia|].
        by replace (Z.to_nat (i - a)) with (S (Z.to_nat (i - (a + 1)))) in Hx by lia.
Qed.

Lemma elem_of_enumerate_1 lines i line_ :
  (i, line_) ∈ enumerate 1 lines <-> line_at lines i = Some line_.
Proof.
  rewrite elem_of_enumerate. unfold line_at.
  destruct (Z.leb_spec 1 i); naive_solver lia.
Qed.

Lemma elem_of_per_line f lines x :
  x ∈ per_line f lines <->
  exists i line_, line_at lines i = Some line_ /\ x ∈ f lines i line_.
Proof.
  unfold per_line. rewrite list_elem_of_bind. split.
  - intros ([i line_] & Hx & Hin). exists i, line_.
    by apply elem_of_enumerate_1 in Hin.
  - intros (i & line_ & Hin & Hx). exists (i, line_).
    by apply elem_of_enumerate_1 in Hin.
Qed.

(** ** The lookback window *)

Lemma examined_indices lines w i line_ :
  line_at lines i = Some line_ ->
  forall j, j ∈ range (Z.max 0 (i - w)) i -> is_Some (py_index lines (j - 1)).
Proof.
  intros Hi%line_at_bounds j Hj%elem_of_range.
  apply py_index_is_Some. lia.
Qed.

(** Past the first [w] lines the loop reads the [w] lines above. *)
Lemma examined_beyond lines w i :
  0 <= w < i -> examined lines w i = lines_above lines w i.
Proof.
  intros Hw. unfold examined, lines_above.
  replace (Z.max 0 (i - w)) with (i - w) by lia.
  apply omap_ext_in. intros j Hj%elem_of_range.
  apply py_index_line_at. lia.
Qed.

(** On the first [w] lines its first turn has [j = 0] and reads
    [lines[-1]], the last line of the input. *)
Lemma examined_wrap lines w i :
  1 <= i <= w ->
  range (Z.max 0 (i - w)) i = 0 :: range 1 i /\
  examined lines w i = option_list (last lines) ++ lines_above lines w i.
Proof.
  intros Hi. replace (Z.max 0 (i - w)) with 0 by lia.
  split; [by rewrite range_cons by lia|].
  unfold examined, lines_above.
  replace (Z.max 0 (i - w)) with 0 by lia.
  rewrite (range_app (i - w) 1 i) by lia.
  rewrite omap_app, (omap_none _ (range (i - w) 1)); last first.
  { intros j Hj%elem_of_range. apply line_at_below. lia. }
  rewrite range_cons by lia. cbn [omap list_omap].
  rewrite py_index_last. simpl (0 + 1).
  rewrite (omap_ext_in _ (line_at lines) (range 1 i)); last first.
  { intros j Hj%elem_of_range. apply py_index_line_at. lia. }
  by destruct (last lines).
Qed.

(** ** The monad *)

Lemma appends_ret : appends (ret tt) [].
Proof.
  intros s l old Hl Hold. unfold ret. f_equal.
  destruct s as [h si lg]; simpl in *. subst si.
  by rewrite app_nil_r, list_insert_id.
Qed.

Lemma appends_bind m1 m2 F1 F2 :
  appends m1 F1 -> appends m2 F2 -> appends (m1 ;; m2) (F1 ++ F2).
Proof.
  intros H1 H2 s l old Hl Hold. unfold bind. rewrite (H1 s l old Hl Hold).
  rewrite (H2 _ l (old ++ F1)); simpl; [|done|].
  - by rewrite list_insert_insert_eq, app_assoc.
  - apply list_lookup_insert_eq. by eapply lookup_lt_Some.
Qed.

Lemma appends_append x : appends (issues <- get_self_issues ;; append issues x) [x].
Proof.
  intros s l old Hl Hold. unfold bind, get_self_issues, append.
  by rewrite Hl, Hold, Hl.
Qed.

Lemma appends_for_each {A} (xs : list A) (body : A -> M unit) g :
  (forall x, x ∈ xs -> appends (body x) (g x)) ->
  appends (for_each xs body) (xs ≫= g).
Proof.
  induction xs as [|x xs IH]; intros Hbody; [apply appends_ret|].
  cbn [for_each]. rewrite bind_cons. apply appends_bind.
  - apply Hbody. by left.
  - apply IH. intros y Hy. apply Hbody. by right.
Qed.

Lemma scan_guard_returns guard lines js s :
  (forall j, j ∈ js -> is_Some (py_index lines (j - 1))) ->
  scan_guard guard lines js s =
  Returns (existsb guard (omap (fun j => py_index lines (j - 1)) js)) s.
Proof.
  induction js as [|j js IH]; intros Hjs; [done|].
  destruct (Hjs j) as [l Hl]; [by left|].
  cbn [scan_guard omap list_omap]. unfold bind, index. rewrite Hl.
  cbn [existsb]. unfold ret at 1.
  destruct (guard l); [done|]. apply IH. intros k Hk. apply Hjs. by right.
Qed.

Lemma lookback_returns guard lines w i line_ s :
  line_at lines i = Some line_ ->
  scan_guard guard lines (range (Z.max 0 (i - w)) i) s =
  Returns (existsb guard (examined lines w i)) s.
Proof.
  intros Hi. apply scan_guard_returns. by eapply examined_indices.
Qed.

Lemma appends_lookback guard lines w i line_ (k : bool -> M unit) found :
  line_at lines i = Some line_ ->
  appends (k (existsb guard (examined lines w i))) found ->
  appends (has_guard <- scan_guard guard lines (range (Z.max 0 (i - w)) i) ;; k has_guard)
          found.
Proof.
  intros Hi Hk s l old Hl Hold. unfold bind.
  rewrite (lookback_returns _ _ _ _ line_) by done. by apply Hk.
Qed.

(** ** The checks append what [per_line] says *)

Ltac split_bool b := destruct b; cbn [andb orb negb]; try apply appends_ret.

Lemma check_division_appends lines :
  appends (_check_division_operations lines) (per_line division_line lines).
Proof.
  apply appends_for_each. intros [i line_] Hi%elem_of_enumerate_1.
  cbn [fst snd]. unfold division_line, division_trigger.
  split_bool (contains (str "/") line_).
  split_bool (contains (str "//") line_).
  split_bool (is_comment line_).
  apply (appends_lookback _ _ _ _ line_); [done|].
  split_bool (existsb zero_guard (examined lines 5 i)).
  split_bool (contains (str "positionSize") line_).
  split_bool (contains (str "Portfolio") line_).
  destruct (re_search divisor_pattern None line_) as [divisor|];
    [apply appends_append | apply appends_ret].
Qed.

Lemma check_max_min_appends lines :
  appends (_check_max_min_operations lines) (per_line max_min_line lines).
Proof.
  apply appends_for_each. intros [i line_] Hi%elem_of_enumerate_1.
  cbn [fst snd]. unfold max_min_line, max_min_trigger.
  split_bool (bool_decide (is_Some (re_search max_min_pattern None line_))).
  destruct (contains (str "indicators[") line_ || contains (str "self.") line_);
    cbn [andb]; [|apply appends_ret].
  apply (appends_lookback _ _ _ _ line_); [done|].
  split_bool (existsb none_guard (examined lines 5 i)).
  apply appends_append.
Qed.

Lemma check_indicator_appends lines :
  appends (_check_indicator_usage lines) (per_line indicator_line lines).
Proof.
  apply appends_for_each. intros [i line_] Hi%elem_of_enumerate_1.
  cbn [fst snd]. unfold indicator_line, indicator_trigger.
  split_bool (bool_decide (is_Some (re_search current_value_pattern None line_))).
  split_bool (is_comment line_).
  destruct (re_search current_value_pattern None line_) as [name|].
  - apply (appends_lookback _ _ _ _ line_); [done|].
    split_bool (existsb (ready_guard name) (examined lines 10 i)).
    apply appends_append.
  - apply appends_append.
Qed.

Lemma check_none_appends lines :
  appends (_check_none_comparisons lines) (per_line none_line lines).
Proof.
  apply appends_for_each. intros [i line_] Hi%elem_of_enumerate_1.
  cbn [fst snd]. unfold none_line, none_trigger.
  split_bool (bool_decide (is_Some (re_search comparison_pattern None line_))).
  destruct (contains (str "indicators[") line_ || contains (str "self.") line_);
    cbn [andb]; [|apply appends_ret].
  split_bool (contains (str "is None") line_).
  split_bool (contains (str "is not None") line_).
  apply (appends_lookback _ _ _ _ line_); [done|].
  destruct (negb (existsb none_guard (examined lines 5 i)) && contains high_literal line_
            || contains low_literal line_);
    [apply appends_append | apply appends_ret].
Qed.

Lemma check_portfolio_appends lines : appends (_check_portfolio_access lines) [].
Proof.
  unfold _check_portfolio_access.
  induction (enumerate 1 lines) as [|[i line_] xs IH]; [apply appends_ret|].
  cbn [for_each]. change (@nil ValidationIssue) with (@nil ValidationIssue ++ []).
  apply appends_bind; [|done].
  destruct (contains (str "self.Portfolio[") line_ && negb (contains (str "Invested") line_));
    apply appends_ret.
Qed.

Lemma emitted_appends check found : appends check found -> emitted check = Some found.
Proof.
  intros Hcheck. unfold emitted, bind, __init__, bind, new_list, set_self_issues.
  cbn [empty_store heap self_issues log length app].
  rewrite (Hcheck _ 0%nat []) by done.
  by cbn.
Qed.

(** ** [validate] in closed form *)

Lemma appends_then {B} m found (k : M B) s l old :
  appends m found -> self_issues s = Some l -> heap s !! l = Some old ->
  (m ;; k) s = k {| heap := <[l := old ++ found]> (heap s);
                    self_issues := Some l; log := log s |}.
Proof. intros Hm Hl Hold. unfold bind. by rewrite (Hm s l old). Qed.

Lemma validate_returns code s :
  validate code s =
  Returns (length (heap s))
    {| heap := heap s ++ [findings code];
       self_issues := Some (length (heap s));
       log := log s ++ [complete_message code] |}.
Proof.
  unfold validate. unfold bind at 1 2. unfold new_list, set_self_issues.
  cbn [heap self_issues log].
  assert (Hat : forall x : list ValidationIssue,
             <[length (heap s) := x]> (heap s ++ [[]]) !! length (heap s) = Some x).
  { intros x. apply list_lookup_insert_eq. rewrite length_app. simpl. lia. }
  erewrite (appends_then _ _ _ _ (length (heap s)) []);
    [|apply check_division_appends|done|by apply list_lookup_middle].
  cbn [heap self_issues log].
  erewrite appends_then; [|apply check_max_min_appends|done|apply Hat].
  cbn [heap self_issues log]. rewrite list_insert_insert_eq.
  erewrite appends_then; [|apply check_indicator_appends|done|apply Hat].
  cbn [heap self_issues log]. rewrite list_insert_insert_eq.
  erewrite appends_then; [|apply check_none_appends|done|apply Hat].
  cbn [heap self_issues log]. rewrite list_insert_insert_eq.
  erewrite appends_then; [|apply check_portfolio_appends|done|apply Hat].
  cbn [heap self_issues log]. rewrite list_insert_insert_eq.
  unfold bind, get_self_issues, contents, logger_info. cbn [heap self_issues log].
  rewrite Hat. cbn [heap self_issues log].
  rewrite insert_app_r_alt, Nat.sub_diag by lia. cbn [insert list_insert].
  unfold findings, complete_message, findings.
  by rewrite !app_nil_r, <- !app_assoc.
Qed.

(** ** When a line is reported *)

Lemma elem_of_division_line lines i line_ f :
  f ∈ division_line lines i line_ <->
  division_trigger line_ = true /\
  existsb zero_guard (examined lines 5 i) = false /\
  contains (str "positionSize") line_ = false /\
  contains (str "Portfolio") line_ = false /\
  exists divisor,
    re_search divisor_pattern None line_ = Some divisor /\ f = division_issue i divisor.
Proof.
  unfold division_line.
  destruct (division_trigger line_), (existsb zero_guard (examined lines 5 i)),
    (contains (str "positionSize") line_), (contains (str "Portfolio") line_),
    (re_search divisor_pattern None line_);
    cbn [andb negb]; rewrite ?list_elem_of_singleton, ?elem_of_nil; naive_solver.
Qed.

Lemma elem_of_max_min_line lines i line_ f :
  f ∈ max_min_line lines i line_ <->
  max_min_trigger line_ = true /\
  existsb none_guard (examined lines 5 i) = false /\ f = max_min_issue i.
Proof.
  unfold max_min_line.
  destruct (max_min_trigger line_), (existsb none_guard (examined lines 5 i));
    cbn [andb negb]; rewrite ?list_elem_of_singleton, ?elem_of_nil; naive_solver.
Qed.

Lemma elem_of_indicator_line lines i line_ f :
  f ∈ indicator_line lines i line_ <->
  indicator_trigger line_ = true /\ f = indicator_issue i /\
  forall name, re_search current_value_pattern None line_ = Some name ->
               existsb (ready_guard name) (examined lines 10 i) = false.
Proof.
  unfold indicator_line.
  destruct (indicator_trigger line_); [|rewrite elem_of_nil; naive_solver].
  destruct (re_search current_value_pattern None line_) as [name|].
  - destruct (existsb (ready_guard name) (examined lines 10 i)) eqn:Hg;
      rewrite ?list_elem_of_singleton, ?elem_of_nil.
    + split; [done|]. intros (_ & _ & Hn). specialize (Hn name eq_refl). congruence.
    + split; [|naive_solver]. intros ->. split_and!; [done..|]. by intros ? [= <-].
  - rewrite list_elem_of_singleton. naive_solver.
Qed.

Lemma elem_of_none_line lines i line_ f :
  f ∈ none_line lines i line_ <->
  none_trigger line_ = true /\ f = none_issue i /\
  (existsb none_guard (examined lines 5 i) = false /\ contains high_literal line_ = true \/
   contains low_literal line_ = true).
Proof.
  unfold none_line.
  destruct (none_trigger line_), (existsb none_guard (examined lines 5 i)),
    (contains high_literal line_), (contains low_literal line_);
    cbn [andb orb negb]; rewrite ?list_elem_of_singleton, ?elem_of_nil; naive_solver.
Qed.

(** Every finding carries the number of the line that produced it. *)
Lemma per_line_at f0 lines f :
  (forall i line_ x, x ∈ f0 lines i line_ -> line x = i) ->
  f ∈ per_line f0 lines ->
  exists line_, line_at lines (line f) = Some line_ /\ f ∈ f0 lines (line f) line_.
Proof.
  intros Hline (i & line_ & Hat & Hf)%elem_of_per_line.
  rewrite (Hline _ _ _ Hf). by exists line_.
Qed.

Lemma division_line_number lines i line_ x : x ∈ division_line lines i line_ -> line x = i.
Proof. intros (_ & _ & _ & _ & d & _ & ->)%elem_of_division_line. done. Qed.

Lemma max_min_line_number lines i line_ x : x ∈ max_min_line lines i line_ -> line x = i.
Proof. intros (_ & _ & ->)%elem_of_max_min_line. done. Qed.

Lemma indicator_line_number lines i line_ x : x ∈ indicator_line lines i line_ -> line x = i.
Proof. intros (_ & -> & _)%elem_of_indicator_line. done. Qed.

Lemma none_line_number lines i line_ x : x ∈ none_line lines i line_ -> line x = i.
Proof. intros (_ & -> & _)%elem_of_none_line. done. Qed.

(** A guard among the lines above is seen by the loop, whatever else it
    reads. *)
Lemma examined_covers_above guard lines w i :
  0 <= w -> 1 <= i ->
  existsb guard (examined lines w i) = false ->
  existsb guard (lines_above lines w i) = false.
Proof.
  intros Hw Hi. destruct (Z.lt_ge_cases w i) as [Hlt|Hge].
  - by rewrite examined_beyond by lia.
  - destruct (examined_wrap lines w i) as [_ ->]; [lia|].
    rewrite existsb_app. by intros [_ ?]%orb_false_iff.
Qed.

Lemma findings_line_at code f :
  f ∈ findings code -> exists line_, line_at (split_lines code) (line f) = Some line_.
Proof.
  unfold findings. rewrite !elem_of_app. intros [Hf|[Hf|[Hf|Hf]]].
  - apply (per_line_at _ _ _ (division_line_number _)) in Hf as (l & ? & _). by exists l.
  - apply (per_line_at _ _ _ (max_min_line_number _)) in Hf as (l & ? & _). by exists l.
  - apply (per_line_at _ _ _ (indicator_line_number _)) in Hf as (l & ? & _). by exists l.
  - apply (per_line_at _ _ _ (none_line_number _)) in Hf as (l & ? & _). by exists l.
Qed.

(** ** The properties of the validator *)

(** C1, as the code has it. The division check returns, and every finding
    it appends is the warning of a line [i] that contains [/], contains no
    [//] anywhere, is not a comment, has no guard ([if] with [> 0] or
    [<= 0]) on the five lines strictly above it, names neither
    [positionSize] nor [Portfolio], and has a divisor after a [/]; the
    finding has severity [warning], line [i], a message naming the divisor
    and the suggestion [if <divisor> <= 0: continue]. Conversely, from
    line 6 on, every line that meets the condition is reported. (What the
    lookback reads on the first five lines is the subject of C9.) *)
Theorem division_check_reports (code : text) :
  let lines := split_lines code in
  exists found,
    emitted (_check_division_operations lines) = Some found /\
    (forall f, f ∈ found ->
       exists line_ divisor,
         division_condition lines (line f) line_ divisor /\
         f = division_issue (line f) divisor) /\
    (forall i line_ divisor,
       5 < i -> division_condition lines i line_ divisor ->
       division_issue i divisor ∈ found).
Proof.
  intros lines. exists (per_line division_line lines).
  split; [apply emitted_appends, check_division_appends|]. split.
  - intros f Hf.
    apply (per_line_at _ _ _ (division_line_number _)) in Hf as (line_ & Hat & Hf).
    apply elem_of_division_line in Hf
      as (Htrig & Hguard & Hsize & Hport & divisor & Hdiv & Hf).
    exists line_, divisor. split; [|done].
    unfold division_trigger in Htrig.
    apply andb_true_iff in Htrig as [[Hslash Hfloor]%andb_true_iff Hcomment].
    apply negb_true_iff in Hfloor, Hcomment.
    apply line_at_bounds in Hat as Hi.
    apply examined_covers_above in Hguard; [|lia..].
    by repeat split.
  - intros i line_ divisor Hi (Hat & Hslash & Hfloor & Hcomment & Hguard & Hsize & Hport & Hdiv).
    apply elem_of_per_line. exists i, line_. split; [done|].
    apply elem_of_division_line. unfold division_trigger.
    rewrite examined_beyond by lia.
    rewrite Hslash, Hfloor, Hcomment. split_and!; [done..|].
    by exists divisor.
Qed.

(** C2. Whatever the text and whatever the state of the instance,
    [validate] returns a list of findings and raises nothing; in
    particular every [lines[j-1]] of a lookback loop is within the
    bounds of the list. *)
Theorem validate_never_raises (code : text) (s : store) :
  (exists issues s' found,
     validate code s = Returns issues s' /\ heap s' !! issues = Some found) /\
  (forall i w j line_ s0,
     line_at (split_lines code) i = Some line_ ->
     j ∈ range (Z.max 0 (i - w)) i ->
     exists l, index (split_lines code) (j - 1) s0 = Returns l s0).
Proof.
  split.
  - eexists _, _, (findings code). split; [apply validate_returns|].
    cbn [heap]. by apply list_lookup_middle.
  - intros i w j line_ s0 Hat Hj.
    destruct (examined_indices _ w _ _ Hat j Hj) as [l Hl].
    exists l. unfold index. by rewrite Hl.
Qed.

(** C3. On a line that meets the trigger of the None-comparison check (a
    comparison operator, [indicators[] or [self.], neither [is None] nor
    [is not None]) an [error] finding is appended exactly when (the
    lookback found no guard and the line contains [indicators["high"]])
    or the line contains [indicators["low"]]; a line with
    [indicators["low"]] is reported whatever the lookback found. *)
Theorem none_comparison_grouping (code : text) (i : Z) (line_ : text) :
  let lines := split_lines code in
  line_at lines i = Some line_ ->
  none_trigger line_ = true ->
  exists found has_guard,
    emitted (_check_none_comparisons lines) = Some found /\
    (forall s, scan_guard none_guard lines (range (Z.max 0 (i - 5)) i) s
               = Returns has_guard s) /\
    ((exists f, f ∈ found /\ line f = i /\ severity f = str "error") <->
     (has_guard = false /\ contains high_literal line_ = true) \/
     contains low_literal line_ = true) /\
    (contains low_literal line_ = true -> none_issue i ∈ found).
Proof.
  intros lines Hat Htrig.
  exists (per_line none_line lines), (existsb none_guard (examined lines 5 i)).
  split; [apply emitted_appends, check_none_appends|].
  split; [intros s; by apply (lookback_returns _ _ _ _ line_)|].
  assert (Hin : none_issue i ∈ per_line none_line lines <->
                (existsb none_guard (examined lines 5 i) = false /\
                 contains high_literal line_ = true) \/
                contains low_literal line_ = true).
  { rewrite elem_of_per_line. split.
    - intros (i' & line' & Hat' & Hf%elem_of_none_line).
      destruct Hf as (_ & [= <-] & Hcase). by simplify_eq.
    - intros Hcase. exists i, line_. split; [done|].
      by apply elem_of_none_line. }
  split; [|intros Hlow; apply Hin; by right].
  rewrite <- Hin. split.
  - intros (f & Hf & Hline & _).
    destruct (per_line_at _ _ _ (none_line_number _) Hf) as (line' & _ & Hf').
    apply elem_of_none_line in Hf' as (_ & Hf' & _). rewrite Hline in Hf'.
    by subst f.
  - intros Hf. by exists (none_issue i).
Qed.

(** C6. Every finding that [validate] returns carries a line number
    between 1 and the number of lines of the text. *)
Theorem findings_within_lines (code : text) (s : store) :
  exists issues s' found,
    validate code s = Returns issues s' /\ heap s' !! issues = Some found /\
    forall f, f ∈ found -> 1 <= line f <= Z.of_nat (length (split_lines code)).
Proof.
  eexists _, _, (findings code). split; [apply validate_returns|].
  cbn [heap]. split; [by apply list_lookup_middle|].
  intros f (line_ & Hat)%findings_line_at. by eapply line_at_bounds.
Qed.

(** C7. Two calls of [validate] on the same text, one after the other on
    one instance, return lists with the same findings in the same order:
    each call binds [self.issues] to a new list, the list of the first
    call is untouched by the second, and the findings are those of any
    other instance on that text. *)
Theorem validate_twice (code : text) (s t : store) :
  exists found first s1 second s2 other s3,
    validate code s = Returns first s1 /\
    validate code s1 = Returns second s2 /\
    validate code t = Returns other s3 /\
    heap s1 !! first = Some found /\
    heap s2 !! second = Some found /\
    heap s2 !! first = Some found /\
    first <> second /\
    heap s3 !! other = Some found.
Proof.
  exists (findings code). eexists _, _, _, _, _, _.
  split; [apply validate_returns|].
  split; [apply validate_returns|].
  split; [apply validate_returns|].
  cbn [heap]. rewrite length_app. simpl (length [_]).
  split_and!.
  - by apply list_lookup_middle.
  - apply list_lookup_middle. rewrite length_app. simpl. lia.
  - rewrite lookup_app_l by (rewrite length_app; simpl; lia).
    by apply list_lookup_middle.
  - lia.
  - by apply list_lookup_middle.
Qed.

(** ** The report *)

Lemma add_issue_entry report issue : add_issue report issue = report ++ report_entry issue.
Proof. unfold add_issue, report_entry. by rewrite <- !app_assoc. Qed.

Lemma fold_add_issue items report :
  fold_left add_issue items report = report ++ concat (report_entry <$> items).
Proof.
  revert report. induction items as [|x items IH]; intros report; simpl.
  - by rewrite app_nil_r.
  - by rewrite IH, add_issue_entry, <- app_assoc.
Qed.

Lemma format_report_returns s l issues :
  self_issues s = Some l -> heap s !! l = Some issues ->
  format_report s =
  Returns (match issues with
           | [] => no_issues_message
           | _ :: _ => report_header (length issues) ++ report_sections issues
           end) s.
Proof.
  intros Hl Hissues. unfold format_report, bind, get_self_issues, contents.
  rewrite Hl, Hissues. destruct issues as [|x xs]; [done|].
  unfold ret. f_equal. unfold report_sections, report_section, report_header.
  generalize (x :: xs). intros issues.
  destruct (filter is_error issues), (filter is_warning issues);
    rewrite ?fold_add_issue, <- ?app_assoc, ?app_nil_r; done.
Qed.

Lemma report_sections_skip before x after :
  severity x <> str "error" -> severity x <> str "warning" ->
  report_sections (before ++ x :: after) = report_sections (before ++ after).
Proof.
  intros Herror Hwarning. unfold report_sections.
  rewrite !filter_app, !filter_cons_False; [done|..].
  - unfold is_warning. by rewrite bool_decide_spec.
  - unfold is_error. by rewrite bool_decide_spec.
Qed.

(** C8. With [self.issues] holding [issues] (as after a call of
    [validate]), [format_report] returns the no-issues message exactly
    when [issues] is empty; otherwise it returns the header with the
    number of all findings, then the ERRORS section with the line,
    message and suggestion of each [error] finding in the order of
    [issues], then the WARNINGS section likewise, a section with no
    finding being left out; a finding of any other severity is counted
    in the header and listed in no section. *)
Theorem format_report_contents (s : store) (l : nat) (issues : list ValidationIssue) :
  self_issues s = Some l -> heap s !! l = Some issues ->
  exists report,
    format_report s = Returns report s /\
    (report = no_issues_message <-> issues = []) /\
    (issues <> [] ->
     report = report_header (length issues) ++
              report_section (str "ERRORS:") (filter is_error issues) ++
              report_section (str "WARNINGS:") (filter is_warning issues)) /\
    (forall before x after,
       issues = before ++ x :: after ->
       severity x <> str "error" -> severity x <> str "warning" ->
       report_sections issues = report_sections (before ++ after)).
Proof.
  intros Hl Hissues. eexists. split; [by apply (format_report_returns s l issues)|].
  split_and!.
  - destruct issues as [|x xs]; [done|]. split; [|done].
    intros Heq. apply (f_equal head) in Heq. discriminate Heq.
  - by destruct issues.
  - intros before x after -> Herror Hwarning. by apply report_sections_skip.
Qed.

(** C10. After [__init__] and before any call of [validate] the list of
    findings is empty: [has_errors] and [has_warnings] return [False],
    the two counts are 0 and [format_report] returns the no-issues
    message. *)
Theorem fresh_validator (s : store) :
  exists s' l,
    __init__ s = Returns tt s' /\
    self_issues s' = Some l /\ heap s' !! l = Some [] /\
    has_errors s' = Returns false s' /\
    has_warnings s' = Returns false s' /\
    get_error_count s' = Returns 0 s' /\
    get_warning_count s' = Returns 0 s' /\
    format_report s' = Returns no_issues_message s'.
Proof.
  eexists _, (length (heap s)). split; [reflexivity|].
  assert (Hat : (heap s ++ [[]]) !! length (heap s) = Some (@nil ValidationIssue))
    by by apply list_lookup_middle.
  cbn [heap self_issues]. split; [done|]. split; [done|].
  unfold has_errors, has_warnings, get_error_count, get_warning_count,
    format_report, bind, get_self_issues, contents.
  cbn [heap self_issues]. by rewrite Hat.
Qed.

(** ** The first lines of the input *)

Lemma existsb_examined_wrap guard lines w i last_line :
  1 <= i <= w -> last lines = Some last_line ->
  existsb guard (examined lines w i) =
  guard last_line || existsb guard (lines_above lines w i).
Proof.
  intros Hi Hlast. destruct (examined_wrap lines w i) as [_ ->]; [done|].
  by rewrite Hlast.
Qed.

Lemma per_line_on_line f0 lines i line_ f :
  (forall j l x, x ∈ f0 lines j l -> line x = j) ->
  line_at lines i = Some line_ ->
  f ∈ per_line f0 lines /\ line f = i <-> f ∈ f0 lines i line_.
Proof.
  intros Hnumber Hat. split.
  - intros [Hf <-]. destruct (per_line_at _ _ _ Hnumber Hf) as (l & Hl & Hin).
    rewrite Hat in Hl. by injection Hl as <-.
  - intros Hf. split; [|by eapply Hnumber].
    apply elem_of_per_line. by exists i, line_.
Qed.

(** C9, as the code has it. On a line [i] no further down than the
    window, the first turn of the lookback loop has [j = 0] and reads
    [lines[-1]], the last line of the input, before the lines above
    line [i]; the loop finds a guard exactly when the last line or one of
    the lines above has one. So on such a line the division, max/min and
    indicator checks report as on later lines, but only when the last
    line has no guard; the None-comparison check reports the
    [indicators["high"]] branch under the same condition, and the
    [indicators["low"]] branch whatever the last line holds. On a one-line
    input the last line is the line itself, and
    [validate("result = a / b if b > 0 else 0")] returns no finding. *)
Theorem lookback_reads_last_line (code : text) (i : Z) (line_ last_line : text) :
  let lines := split_lines code in
  line_at lines i = Some line_ ->
  last lines = Some last_line ->
  (length lines = 1%nat -> last_line = line_) /\
  (forall w guard, i <= w ->
     range (Z.max 0 (i - w)) i = 0 :: range 1 i /\
     (forall s, index lines (0 - 1) s = Returns last_line s) /\
     (forall s, scan_guard guard lines (range (Z.max 0 (i - w)) i) s =
                (l <- index lines (0 - 1) ;;
                 if guard l then ret true else scan_guard guard lines (range 1 i)) s) /\
     (forall s, scan_guard guard lines (range (Z.max 0 (i - w)) i) s =
                Returns (guard last_line || existsb guard (lines_above lines w i)) s)) /\
  (exists division max_min indicator none,
     emitted (_check_division_operations lines) = Some division /\
     emitted (_check_max_min_operations lines) = Some max_min /\
     emitted (_check_indicator_usage lines) = Some indicator /\
     emitted (_check_none_comparisons lines) = Some none /\
     (i <= 5 ->
      forall f, f ∈ division /\ line f = i <->
                zero_guard last_line = false /\
                exists divisor,
                  division_condition lines i line_ divisor /\ f = division_issue i divisor) /\
     (i <= 5 ->
      forall f, f ∈ max_min /\ line f = i <->
                none_guard last_line = false /\
                max_min_trigger line_ = true /\
                existsb none_guard (lines_above lines 5 i) = false /\
                f = max_min_issue i) /\
     (i <= 10 ->
      forall f, f ∈ indicator /\ line f = i <->
                indicator_trigger line_ = true /\ f = indicator_issue i /\
                forall name,
                  re_search current_value_pattern None line_ = Some name ->
                  ready_guard name last_line = false /\
                  existsb (ready_guard name) (lines_above lines 10 i) = false) /\
     (i <= 5 ->
      forall f, f ∈ none /\ line f = i <->
                none_trigger line_ = true /\ f = none_issue i /\
                (none_guard last_line = false /\
                 existsb none_guard (lines_above lines 5 i) = false /\
                 contains high_literal line_ = true \/
                 contains low_literal line_ = true))) /\
  (forall s, exists issues s',
     validate (str "result = a / b if b > 0 else 0") s = Returns issues s' /\
     heap s' !! issues = Some []).
Proof.
  intros lines Hat Hlast.
  pose proof (line_at_bounds _ _ _ Hat) as Hi.
  split_and!.
  - intros Hone. clearbody lines. destruct lines as [|l [|l' ls]]; try done.
    assert (i = 1) as -> by (simpl in Hi; lia).
    unfold line_at in Hat. change (Some l = Some line_) in Hat.
    cbn in Hlast. congruence.
  - intros w guard Hw.
    destruct (examined_wrap lines w i) as [Hrange _]; [lia|].
    assert (Hindex : forall s, index lines (0 - 1) s = Returns last_line s).
    { intros s. unfold index. by rewrite py_index_last, Hlast. }
    split_and!; [done|done| |].
    + intros s. by rewrite Hrange.
    + intros s. rewrite (lookback_returns guard lines w i line_ s Hat).
      by rewrite (existsb_examined_wrap guard lines w i last_line) by (done || lia).
  - exists (per_line division_line lines), (per_line max_min_line lines),
      (per_line indicator_line lines), (per_line none_line lines).
    split; [apply emitted_appends, check_division_appends|].
    split; [apply emitted_appends, check_max_min_appends|].
    split; [apply emitted_appends, check_indicator_appends|].
    split; [apply emitted_appends, check_none_appends|].
    split_and!.
    + intros Hw f.
      rewrite (per_line_on_line division_line lines i line_ f
                 (division_line_number lines) Hat).
      rewrite elem_of_division_line.
      rewrite (existsb_examined_wrap zero_guard lines 5 i last_line) by (done || lia).
      unfold division_condition, division_trigger.
      rewrite orb_false_iff, !andb_true_iff, !negb_true_iff. naive_solver.
    + intros Hw f.
      rewrite (per_line_on_line max_min_line lines i line_ f
                 (max_min_line_number lines) Hat).
      rewrite elem_of_max_min_line.
      rewrite (existsb_examined_wrap none_guard lines 5 i last_line) by (done || lia).
      rewrite orb_false_iff. naive_solver.
    + intros Hw f.
      rewrite (per_line_on_line indicator_line lines i line_ f
                 (indicator_line_number lines) Hat).
      rewrite elem_of_indicator_line.
      split.
      * intros (Htrig & Hf & Hno). split_and!; [done..|]. intros name Hname.
        specialize (Hno name Hname).
        rewrite (existsb_examined_wrap _ lines 10 i last_line) in Hno by (done || lia).
        by apply orb_false_iff in Hno.
      * intros (Htrig & Hf & Hno). split_and!; [done..|]. intros name Hname.
        rewrite (existsb_examined_wrap _ lines 10 i last_line) by (done || lia).
        apply orb_false_iff. by apply Hno.
    + intros Hw f.
      rewrite (per_line_on_line none_line lines i line_ f
                 (none_line_number lines) Hat).
      rewrite elem_of_none_line.
      rewrite (existsb_examined_wrap none_guard lines 5 i last_line) by (done || lia).
      rewrite orb_false_iff. naive_solver.
  - intros s. eexists _, _. split; [apply validate_returns|].
    cbn [heap]. rewrite list_lookup_middle by done. by vm_compute.
Qed.

(** ** Two inputs on which a check stays silent *)

(** C4. The text
    [x = self.rsi.Current.Value] / [if self.rsi.IsReady: self.Log(x)]:
    line 1 reads [rsi.Current.Value], is not a comment and has no line
    above it, yet the indicator check appends nothing, because the
    lookback of line 1 reads [lines[-1]], which is line 2. *)
Theorem indicator_use_before_check_unreported :
  let lines := split_lines (str "x = self.rsi.Current.Value" ++ nl ++
                            str "if self.rsi.IsReady: self.Log(x)") in
  exists line_,
    line_at lines 1 = Some line_ /\
    indicator_trigger line_ = true /\
    re_search current_value_pattern None line_ = Some (str "rsi") /\
    lines_above lines 10 1 = [] /\
    examined lines 10 1 = [str "if self.rsi.IsReady: self.Log(x)"] /\
    emitted (_check_indicator_usage lines) = Some [].
Proof. intros lines. eexists. split; [reflexivity|]. by vm_compute. Qed.

(** C5. The text [v = max(self.a, 1)] / [if self.a is not None: pass]:
    line 1 calls [max(] on [self.] and has no line above it, yet the
    max/min check appends nothing, because the lookback of line 1 reads
    [lines[-1]], which is line 2. On the text of scenario E,
    [val = max(indicators['high'], 0)], the one finding is the error of
    line 1. *)
Theorem max_min_before_check_unreported :
  (let lines := split_lines (str "v = max(self.a, 1)" ++ nl ++
                             str "if self.a is not None: pass") in
   exists line_,
     line_at lines 1 = Some line_ /\
     max_min_trigger line_ = true /\
     lines_above lines 5 1 = [] /\
     examined lines 5 1 = [str "if self.a is not None: pass"] /\
     emitted (_check_max_min_operations lines) = Some []) /\
  (forall s, exists issues s',
     validate (str "val = max(indicators['high'], 0)") s = Returns issues s' /\
     heap s' !! issues = Some [max_min_issue 1]).
Proof.
  split.
  - intros lines. eexists. split; [reflexivity|]. by vm_compute.
  - intros s. eexists _, _. split; [apply validate_returns|].
    cbn [heap]. rewrite list_lookup_middle by done. by vm_compute.
Qed.

(** ** Order of the findings, counts and the scenarios of the specification *)

(** The list that [validate] returns holds the findings of the division
    check, then those of the max/min check, of the indicator check and of
    the None-comparison check: the order of the checks, not of the lines. *)
Theorem findings_in_check_order (code : text) (s : store) :
  let lines := split_lines code in
  exists division max_min indicator none issues s',
    emitted (_check_division_operations lines) = Some division /\
    emitted (_check_max_min_operations lines) = Some max_min /\
    emitted (_check_indicator_usage lines) = Some indicator /\
    emitted (_check_none_comparisons lines) = Some none /\
    emitted (_check_portfolio_access lines) = Some [] /\
    validate code s = Returns issues s' /\
    heap s' !! issues = Some (division ++ max_min ++ indicator ++ none).
Proof.
  intros lines.
  exists (per_line division_line lines), (per_line max_min_line lines),
    (per_line indicator_line lines), (per_line none_line lines).
  eexists _, _.
  split; [apply emitted_appends, check_division_appends|].
  split; [apply emitted_appends, check_max_min_appends|].
  split; [apply emitted_appends, check_indicator_appends|].
  split; [apply emitted_appends, check_none_appends|].
  split; [apply emitted_appends, check_portfolio_appends|].
  split; [apply validate_returns|].
  cbn [heap]. by apply list_lookup_middle.
Qed.

Lemma sum_of_ones {A} (l : list A) : foldr Z.add 0 ((fun _ => 1) <$> l) = Z.of_nat (length l).
Proof. induction l as [|x l IH]; [done|]. cbn [fmap list_fmap foldr length]. lia. Qed.

Lemma existsb_filter {A} (p : A -> bool) (l : list A) :
  existsb p l = (0 <? Z.of_nat (length (filter p l))).
Proof.
  induction l as [|x l IH]; [done|].
  cbn [existsb]. rewrite filter_cons. destruct (p x) eqn:Hp; case_decide as Hd.
  - cbn [orb length]. symmetry. apply Z.ltb_lt. lia.
  - by destruct Hd.
  - by destruct Hd.
  - by cbn [orb].
Qed.

(** The counts are the numbers of findings of each severity, and
    [has_errors], [has_warnings] say whether the count is positive. *)
Theorem severity_counts (s : store) (l : nat) (issues : list ValidationIssue) :
  self_issues s = Some l -> heap s !! l = Some issues ->
  get_error_count s = Returns (Z.of_nat (length (filter is_error issues))) s /\
  get_warning_count s = Returns (Z.of_nat (length (filter is_warning issues))) s /\
  has_errors s = Returns (0 <? Z.of_nat (length (filter is_error issues))) s /\
  has_warnings s = Returns (0 <? Z.of_nat (length (filter is_warning issues))) s.
Proof.
  intros Hl Hissues.
  unfold get_error_count, get_warning_count, has_errors, has_warnings,
    bind, get_self_issues, contents, ret.
  rewrite Hl, Hissues. by rewrite !sum_of_ones, !existsb_filter.
Qed.

(** Scenarios A to F of the specification. *)
Theorem scenarios :
  findings (str "if divisor > 0:" ++ nl ++ str "    result = a / divisor") = [] /\
  findings (str "result = total / count") = [division_issue 1 (str "count")] /\
  findings (str "x = self.rsi.Current.Value") = [indicator_issue 1] /\
  findings (str "if self.rsi.IsReady:" ++ nl ++ str "    x = self.rsi.Current.Value") = [] /\
  findings (str "val = max(indicators['high'], 0)") = [max_min_issue 1] /\
  findings [] = [] /\
  forall code s, exists issues s',
    validate code s = Returns issues s' /\ heap s' !! issues = Some (findings code).
Proof.
  split_and!; try by vm_compute.
  intros code s. eexists _, _. split; [apply validate_returns|].
  cbn [heap]. by apply list_lookup_middle.
Qed.

(** ** One finding per line and check, reported once *)

Lemma enumerate_bind_sorted {A} (g : Z * A -> list ValidationIssue) (a : Z) (l : list A) :
  (forall p x, x ∈ g p -> line x = p.1) ->
  (forall p, (length (g p) <= 1)%nat) ->
  StronglySorted Z.lt (line <$> (enumerate a l ≫= g)) /\
  Forall (fun x => a <= line x) (enumerate a l ≫= g) /\
  (length (enumerate a l ≫= g) <= length l)%nat.
Proof.
  intros Hline Hone. revert a. induction l as [|y l IH]; intros a.
  - cbn. split_and!; [constructor|constructor|lia].
  - cbn [enumerate]. rewrite bind_cons.
    destruct (IH (a + 1)) as (Hsorted & Hfrom & Hlen).
    assert (Hrest : Forall (fun x => a < line x) (enumerate (a + 1) l ≫= g)).
    { eapply Forall_impl; [exact Hfrom|]. intros x Hx. simpl in Hx. lia. }
    pose proof (Hone (a, y)) as H1. pose proof (Hline (a, y)) as Ha.
    destruct (g (a, y)) as [|x [|x' rest]]; cbn [app length] in *.
    + split_and!; [done| |lia].
      eapply Forall_impl; [exact Hfrom|]. intros x Hx. simpl in Hx. lia.
    + assert (Hx : line x = a) by (apply Ha; left).
      split_and!.
      * cbn [fmap list_fmap]. constructor; [done|].
        rewrite Hx. apply Forall_fmap.
        eapply Forall_impl; [exact Hrest|]. by intros z Hz.
      * constructor; [lia|].
        eapply Forall_impl; [exact Hfrom|]. intros z Hz. simpl in Hz. lia.
      * lia.
    + lia.
Qed.

Lemma per_line_sorted f lines :
  (forall i line_ x, x ∈ f lines i line_ -> line x = i) ->
  (forall i line_, (length (f lines i line_) <= 1)%nat) ->
  StronglySorted Z.lt (line <$> per_line f lines) /\
  (length (per_line f lines) <= length lines)%nat.
Proof.
  intros Hline Hone. unfold per_line.
  destruct (enumerate_bind_sorted (fun p => f lines p.1 p.2) 1 lines)
    as (Hsorted & _ & Hlen); [|done..].
  intros [i line_] x. apply Hline.
Qed.

Lemma division_line_one lines i line_ : (length (division_line lines i line_) <= 1)%nat.
Proof. unfold division_line. repeat case_match; simpl; lia. Qed.

Lemma max_min_line_one lines i line_ : (length (max_min_line lines i line_) <= 1)%nat.
Proof. unfold max_min_line. repeat case_match; simpl; lia. Qed.

Lemma indicator_line_one lines i line_ : (length (indicator_line lines i line_) <= 1)%nat.
Proof. unfold indicator_line. repeat case_match; simpl; lia. Qed.

Lemma none_line_one lines i line_ : (length (none_line lines i line_) <= 1)%nat.
Proof. unfold none_line. repeat case_match; simpl; lia. Qed.

(** Within the findings of one check the line numbers increase
    strictly: a check reports a line at most once, in the order of the
    lines, and never more findings than the text has lines. *)
Theorem check_findings_increase (code : text) :
  let lines := split_lines code in
  exists division max_min indicator none,
    emitted (_check_division_operations lines) = Some division /\
    emitted (_check_max_min_operations lines) = Some max_min /\
    emitted (_check_indicator_usage lines) = Some indicator /\
    emitted (_check_none_comparisons lines) = Some none /\
    StronglySorted Z.lt (line <$> division) /\
    StronglySorted Z.lt (line <$> max_min) /\
    StronglySorted Z.lt (line <$> indicator) /\
    StronglySorted Z.lt (line <$> none) /\
    (length division <= length lines)%nat /\
    (length max_min <= length lines)%nat /\
    (length indicator <= length lines)%nat /\
    (length none <= length lines)%nat.
Proof.
  intros lines.
  exists (per_line division_line lines), (per_line max_min_line lines),
    (per_line indicator_line lines), (per_line none_line lines).
  split; [apply emitted_appends, check_division_appends|].
  split; [apply emitted_appends, check_max_min_appends|].
  split; [apply emitted_appends, check_indicator_appends|].
  split; [apply emitted_appends, check_none_appends|].
  destruct (per_line_sorted division_line lines
              (division_line_number lines) (division_line_one lines)).
  destruct (per_line_sorted max_min_line lines
              (max_min_line_number lines) (max_min_line_one lines)).
  destruct (per_line_sorted indicator_line lines
              (indicator_line_number lines) (indicator_line_one lines)).
  destruct (per_line_sorted none_line lines
              (none_line_number lines) (none_line_one lines)).
  by split_and!.
Qed.

Lemma filter_all {A} (P : A -> Prop) `{forall x, Decision (P x)} (l : list A) :
  (forall x, x ∈ l -> P x) -> filter P l = l.
Proof.
  induction l as [|x l IH]; intros HP; [done|].
  rewrite filter_cons_True by (apply HP; left).
  rewrite IH; [done|]. intros y Hy. apply HP. by right.
Qed.

Lemma filter_none {A} (P : A -> Prop) `{forall x, Decision (P x)} (l : list A) :
  (forall x, x ∈ l -> ~ P x) -> filter P l = [].
Proof.
  induction l as [|x l IH]; intros HP; [done|].
  rewrite filter_cons_False by (apply HP; left).
  apply IH. intros y Hy. apply HP. by right.
Qed.

Lemma division_findings_warning lines f :
  f ∈ per_line division_line lines -> severity f = str "warning".
Proof.
  intros (i & line_ & _ & Hf)%elem_of_per_line.
  by apply elem_of_division_line in Hf as (_ & _ & _ & _ & d & _ & ->).
Qed.

Lemma error_findings_error lines f :
  f ∈ per_line max_min_line lines ++ per_line indicator_line lines ++ per_line none_line lines ->
  severity f = str "error".
Proof.
  rewrite !elem_of_app.
  intros [(i & l & _ & Hf)%elem_of_per_line|
          [(i & l & _ & Hf)%elem_of_per_line|(i & l & _ & Hf)%elem_of_per_line]].
  - by apply elem_of_max_min_line in Hf as (_ & _ & ->).
  - by apply elem_of_indicator_line in Hf as (_ & -> & _).
  - by apply elem_of_none_line in Hf as (_ & -> & _).
Qed.

Lemma accessors_return s l issues :
  self_issues s = Some l -> heap s !! l = Some issues ->
  get_error_count s = Returns (Z.of_nat (length (filter is_error issues))) s /\
  get_warning_count s = Returns (Z.of_nat (length (filter is_warning issues))) s /\
  has_errors s = Returns (existsb is_error issues) s /\
  has_warnings s = Returns (existsb is_warning issues) s.
Proof.
  intros Hl Hissues.
  unfold get_error_count, get_warning_count, has_errors, has_warnings,
    bind, get_self_issues, contents, ret.
  rewrite Hl, Hissues. by rewrite !sum_of_ones.
Qed.

(** After [validate] every finding is a [warning] of the division check
    or an [error] of one of the other three; the counts are the sizes of
    the two groups and add up to the number of findings, and
    [format_report] lists every finding once: the errors of the max/min,
    indicator and None-comparison checks first, the division warnings,
    found before them, last. *)
Theorem report_after_validate (code : text) (s : store) :
  let lines := split_lines code in
  exists division errors issues s',
    emitted (_check_division_operations lines) = Some division /\
    (exists max_min indicator none,
       emitted (_check_max_min_operations lines) = Some max_min /\
       emitted (_check_indicator_usage lines) = Some indicator /\
       emitted (_check_none_comparisons lines) = Some none /\
       errors = max_min ++ indicator ++ none) /\
    validate code s = Returns issues s' /\
    heap s' !! issues = Some (division ++ errors) /\
    (forall f, f ∈ division -> severity f = str "warning") /\
    (forall f, f ∈ errors -> severity f = str "error") /\
    get_warning_count s' = Returns (Z.of_nat (length division)) s' /\
    get_error_count s' = Returns (Z.of_nat (length errors)) s' /\
    format_report s' =
    Returns (match division ++ errors with
             | [] => no_issues_message
             | _ :: _ =>
                 report_header (length division + length errors) ++
                 report_section (str "ERRORS:") errors ++
                 report_section (str "WARNINGS:") division
             end) s'.
Proof.
  intros lines.
  set (division := per_line division_line lines).
  set (errors := per_line max_min_line lines ++ per_line indicator_line lines ++
                 per_line none_line lines).
  exists division, errors. eexists _, _.
  split; [apply emitted_appends, check_division_appends|].
  split.
  { eexists _, _, _.
    split; [apply emitted_appends, check_max_min_appends|].
    split; [apply emitted_appends, check_indicator_appends|].
    split; [apply emitted_appends, check_none_appends|]. done. }
  split; [apply validate_returns|].
  assert (Hwarning : forall f, f ∈ division -> severity f = str "warning")
    by (intros f; apply division_findings_warning).
  assert (Herror : forall f, f ∈ errors -> severity f = str "error")
    by (intros f; apply error_findings_error).
  assert (Hfe : filter is_error (division ++ errors) = errors).
  { rewrite filter_app, filter_none, filter_all; [done|..].
    - intros f Hf. unfold is_error. rewrite bool_decide_spec. by apply Herror.
    - intros f Hf. unfold is_error. rewrite bool_decide_spec, (Hwarning f Hf). done. }
  assert (Hfw : filter is_warning (division ++ errors) = division).
  { rewrite filter_app, filter_all, filter_none; [by rewrite app_nil_r|..].
    - intros f Hf. unfold is_warning. rewrite bool_decide_spec, (Herror f Hf). done.
    - intros f Hf. unfold is_warning. rewrite bool_decide_spec. by apply Hwarning. }
  set (s' := {| heap := heap s ++ [findings code];
               self_issues := Some (length (heap s));
               log := log s ++ [complete_message code] |}).
  assert (Hat : heap s' !! length (heap s) = Some (division ++ errors)).
  { cbn [heap s']. by apply list_lookup_middle. }
  split; [exact Hat|]. split; [done|]. split; [done|].
  destruct (accessors_return s' (length (heap s)) (division ++ errors) eq_refl Hat)
    as (He & Hw & _ & _).
  split; [by rewrite Hw, Hfw|]. split; [by rewrite He, Hfe|].
  rewrite (format_report_returns s' (length (heap s)) (division ++ errors) eq_refl Hat).
  unfold report_sections. rewrite Hfe, Hfw, length_app.
  done.
Qed.

(** ** Lines beyond the window, and texts without the trigger characters *)

Lemma split_lines_nonempty code : split_lines code <> [].
Proof.
  destruct code as [|c code]; [done|]. cbn [split_lines].
  destruct (c =? 10)%N; [done|]. by destruct (split_lines code).
Qed.

Lemma split_lines_app a b : split_lines (a ++ nl ++ b) = split_lines a ++ split_lines b.
Proof.
  induction a as [|c a IH]; [done|].
  cbn [app split_lines]. destruct (c =? 10)%N.
  - cbn [app] in IH. by rewrite IH.
  - cbn [app] in IH. rewrite IH.
    pose proof (split_lines_nonempty a). by destruct (split_lines a).
Qed.

Lemma line_at_app lines more i :
  i <= Z.of_nat (length lines) -> line_at (lines ++ more) i = line_at lines i.
Proof.
  intros Hi. unfold line_at. destruct (1 <=? i) eqn:H1; [|done].
  apply lookup_app_l. lia.
Qed.

Lemma lines_above_app lines more w i :
  i <= Z.of_nat (length lines) + 1 ->
  lines_above (lines ++ more) w i = lines_above lines w i.
Proof.
  intros Hi. unfold lines_above. apply omap_ext_in.
  intros j Hj%elem_of_range. apply line_at_app. lia.
Qed.

Lemma per_line_stable f w lines more x :
  0 <= w ->
  (forall ls i line_ y, y ∈ f ls i line_ -> line y = i) ->
  (forall ls ls' i line_,
     lines_above ls w i = lines_above ls' w i ->
     examined ls w i = lines_above ls w i ->
     examined ls' w i = lines_above ls' w i ->
     f ls i line_ = f ls' i line_) ->
  w < line x <= Z.of_nat (length lines) ->
  x ∈ per_line f lines <-> x ∈ per_line f (lines ++ more).
Proof.
  intros Hw Hline Hlocal Hx.
  assert (Hsame : forall line_,
             f lines (line x) line_ = f (lines ++ more) (line x) line_).
  { intros line_. apply Hlocal.
    - symmetry. apply lines_above_app. lia.
    - apply examined_beyond. lia.
    - apply examined_beyond. lia. }
  split; intros Hin.
  - destruct (per_line_at _ _ _ (Hline lines) Hin) as (line_ & Hat & Hf).
    apply elem_of_per_line. exists (line x), line_.
    rewrite line_at_app by lia. by rewrite <- Hsame.
  - destruct (per_line_at _ _ _ (Hline (lines ++ more)) Hin) as (line_ & Hat & Hf).
    apply elem_of_per_line. exists (line x), line_.
    rewrite line_at_app in Hat by lia. by rewrite Hsame.
Qed.

(** A finding on a line below the first ten does not depend on what
    follows the text: appending a newline and more text to [code] keeps
    exactly the findings of [code] on its lines 11 and beyond (for the
    division, max/min and None-comparison checks, on its lines 6 and
    beyond). *)
Theorem findings_beyond_window_stable (code more : text) (f : ValidationIssue) (s : store) :
  let lines := split_lines code in
  let lines' := split_lines (code ++ nl ++ more) in
  5 < line f <= Z.of_nat (length lines) ->
  exists division division' max_min max_min' none none' indicator indicator',
    emitted (_check_division_operations lines) = Some division /\
    emitted (_check_division_operations lines') = Some division' /\
    emitted (_check_max_min_operations lines) = Some max_min /\
    emitted (_check_max_min_operations lines') = Some max_min' /\
    emitted (_check_none_comparisons lines) = Some none /\
    emitted (_check_none_comparisons lines') = Some none' /\
    emitted (_check_indicator_usage lines) = Some indicator /\
    emitted (_check_indicator_usage lines') = Some indicator' /\
    (f ∈ division <-> f ∈ division') /\
    (f ∈ max_min <-> f ∈ max_min') /\
    (f ∈ none <-> f ∈ none') /\
    (10 < line f ->
     (f ∈ indicator <-> f ∈ indicator') /\
     exists issues s1 issues' s2 found found',
       validate code s = Returns issues s1 /\ heap s1 !! issues = Some found /\
       validate (code ++ nl ++ more) s = Returns issues' s2 /\
       heap s2 !! issues' = Some found' /\
       (f ∈ found <-> f ∈ found')).
Proof.
  intros lines lines' Hf. unfold lines'. rewrite split_lines_app. fold lines.
  set (rest := split_lines more).
  assert (Hd : f ∈ per_line division_line lines <->
               f ∈ per_line division_line (lines ++ rest)).
  { apply (per_line_stable division_line 5); [lia| |  |lia].
    - intros ls. apply division_line_number.
    - intros ls ls' i line_ Habove He He'. unfold division_line.
      by rewrite He, He', Habove. }
  assert (Hm : f ∈ per_line max_min_line lines <->
               f ∈ per_line max_min_line (lines ++ rest)).
  { apply (per_line_stable max_min_line 5); [lia| |  |lia].
    - intros ls. apply max_min_line_number.
    - intros ls ls' i line_ Habove He He'. unfold max_min_line.
      by rewrite He, He', Habove. }
  assert (Hn : f ∈ per_line none_line lines <->
               f ∈ per_line none_line (lines ++ rest)).
  { apply (per_line_stable none_line 5); [lia| |  |lia].
    - intros ls. apply none_line_number.
    - intros ls ls' i line_ Habove He He'. unfold none_line.
      by rewrite He, He', Habove. }
  eexists _, _, _, _, _, _, _, _.
  split; [apply emitted_appends, check_division_appends|].
  split; [apply emitted_appends, check_division_appends|].
  split; [apply emitted_appends, check_max_min_appends|].
  split; [apply emitted_appends, check_max_min_appends|].
  split; [apply emitted_appends, check_none_appends|].
  split; [apply emitted_appends, check_none_appends|].
  split; [apply emitted_appends, check_indicator_appends|].
  split; [apply emitted_appends, check_indicator_appends|].
  split; [exact Hd|]. split; [exact Hm|]. split; [exact Hn|].
  intros Hten.
  assert (Hi : f ∈ per_line indicator_line lines <->
               f ∈ per_line indicator_line (lines ++ rest)).
  { apply (per_line_stable indicator_line 10); [lia| |  |lia].
    - intros ls. apply indicator_line_number.
    - intros ls ls' i line_ Habove He He'. unfold indicator_line.
      by rewrite He, He', Habove. }
  split; [exact Hi|].
  eexists _, _, _, _, (findings code), (findings (code ++ nl ++ more)).
  split; [apply validate_returns|].
  split; [cbn [heap]; by apply list_lookup_middle|].
  split; [apply validate_returns|].
  split; [cbn [heap]; by apply list_lookup_middle|].
  unfold findings. rewrite split_lines_app. fold lines rest.
  rewrite !elem_of_app. by rewrite Hd, Hm, Hi, Hn.
Qed.

Lemma startswith_elem p s c : startswith p s = true -> c ∈ p -> c ∈ s.
Proof.
  revert s. induction p as [|a p IH]; intros s Hs Hc; [by apply elem_of_nil in Hc|].
  destruct s as [|b s]; [done|]. cbn [startswith] in Hs.
  apply andb_true_iff in Hs as [Hab%N.eqb_eq Hs]. subst b.
  apply elem_of_cons in Hc as [->|Hc]; [left|right; by apply IH].
Qed.

Lemma contains_elem p s c : contains p s = true -> c ∈ p -> c ∈ s.
Proof.
  induction s as [|b s IH]; cbn [contains]; intros Hs Hc.
  - apply orb_true_iff in Hs as [Hs|]; [|done]. by eapply startswith_elem.
  - apply orb_true_iff in Hs as [Hs|Hs]; [by eapply startswith_elem|].
    right. by apply IH.
Qed.

Lemma split_lines_elem code line_ c : line_ ∈ split_lines code -> c ∈ line_ -> c ∈ code.
Proof.
  revert line_. induction code as [|b code IH]; intros line_; cbn [split_lines].
  - intros ->%list_elem_of_singleton Hc. by apply elem_of_nil in Hc.
  - destruct (b =? 10)%N.
    + intros [->|Hl]%elem_of_cons Hc; [by apply elem_of_nil in Hc|].
      right. by eapply IH.
    + pose proof (split_lines_nonempty code) as Hne.
      destruct (split_lines code) as [|l ls]; [done|].
      intros [->|Hl]%elem_of_cons Hc.
      * apply elem_of_cons in Hc as [->|Hc]; [left|].
        right. apply (IH l); [left|done].
      * right. apply (IH line_); [by right|done].
Qed.

Lemma word_then_elem suffix s w c :
  word_then suffix s = Some w -> c ∈ suffix -> c ∈ s.
Proof.
  revert w. induction s as [|b s IH]; intros w; cbn [word_then]; [done|].
  destruct (is_word b); [|done].
  destruct (word_then suffix s) as [w'|] eqn:Hw.
  - intros _ Hc. right. by eapply IH.
  - destruct (startswith suffix s) eqn:Hs; [|done].
    intros _ Hc. right. by eapply startswith_elem.
Qed.

Lemma re_search_current_value_elem prev s name :
  re_search current_value_pattern prev s = Some name -> 46%N ∈ s.
Proof.
  revert prev. induction s as [|b s IH]; intros prev; cbn [re_search].
  - by cbn.
  - unfold current_value_pattern at 1.
    destruct (word_then (str ".Current.Value") (b :: s)) as [w|] eqn:Hw.
    + intros _. apply (word_then_elem _ _ _ _ Hw). by left.
    + intros Hs. right. by eapply IH.
Qed.

Lemma line_at_elem lines i line_ : line_at lines i = Some line_ -> line_ ∈ lines.
Proof.
  unfold line_at. destruct (1 <=? i); [|done]. apply list_elem_of_lookup_2.
Qed.

Lemma dotted_or_indexed line_ :
  contains (str "indicators[") line_ || contains (str "self.") line_ = true ->
  91%N ∈ line_ \/ 46%N ∈ line_.
Proof.
  intros [H|H]%orb_true_iff.
  - left. apply (contains_elem _ _ _ H). by vm_compute; repeat constructor.
  - right. apply (contains_elem _ _ _ H). by vm_compute; repeat constructor.
Qed.

(** A text without [/] gets no warning, and a text with neither [.] nor
    [[] gets no error: without these three characters [validate]
    returns the empty list and the report is the no-issues message. *)
Theorem text_without_trigger_characters (code : text) (s : store) :
  exists issues s' found,
    validate code s = Returns issues s' /\ heap s' !! issues = Some found /\
    (47%N ∉ code -> has_warnings s' = Returns false s') /\
    (46%N ∉ code -> 91%N ∉ code -> has_errors s' = Returns false s') /\
    (47%N ∉ code -> 46%N ∉ code -> 91%N ∉ code ->
     found = [] /\ format_report s' = Returns no_issues_message s').
Proof.
  set (lines := split_lines code).
  set (s' := {| heap := heap s ++ [findings code];
               self_issues := Some (length (heap s));
               log := log s ++ [complete_message code] |}).
  assert (Hat : heap s' !! length (heap s) = Some (findings code)).
  { cbn [heap s']. by apply list_lookup_middle. }
  assert (Hdivision : 47%N ∉ code -> per_line division_line lines = []).
  { intros Hno. apply elem_of_nil_inv. intros f (i & l & Hl & Hf)%elem_of_per_line.
    apply elem_of_division_line in Hf as (Htrig & _).
    unfold division_trigger in Htrig.
    apply andb_true_iff in Htrig as [[Hslash _]%andb_true_iff _].
    apply Hno, (split_lines_elem code l); [by eapply line_at_elem|].
    apply (contains_elem _ _ _ Hslash). by left. }
  assert (Herrors : 46%N ∉ code -> 91%N ∉ code ->
            per_line max_min_line lines ++ per_line indicator_line lines ++
            per_line none_line lines = []).
  { intros Hdot Hbracket. apply elem_of_nil_inv. intros f. rewrite !elem_of_app.
    assert (Hin : forall l c, l ∈ lines -> c ∈ l -> c ∈ code)
      by (intros l c; apply split_lines_elem).
    intros [(i & l & Hl%line_at_elem & Hf)%elem_of_per_line|
            [(i & l & Hl%line_at_elem & Hf)%elem_of_per_line|
             (i & l & Hl%line_at_elem & Hf)%elem_of_per_line]].
    - apply elem_of_max_min_line in Hf as (Htrig & _).
      unfold max_min_trigger in Htrig. apply andb_true_iff in Htrig as [_ Htrig].
      destruct (dotted_or_indexed l Htrig); eauto.
    - apply elem_of_indicator_line in Hf as (Htrig & _).
      unfold indicator_trigger in Htrig. apply andb_true_iff in Htrig as [Htrig _].
      apply bool_decide_eq_true in Htrig as [name Hname].
      apply re_search_current_value_elem in Hname. eauto.
    - apply elem_of_none_line in Hf as (Htrig & _).
      unfold none_trigger in Htrig.
      apply andb_true_iff in Htrig as [[[_ Htrig]%andb_true_iff _]%andb_true_iff _].
      destruct (dotted_or_indexed l Htrig); eauto. }
  destruct (accessors_return s' _ _ eq_refl Hat) as (_ & _ & He & Hw).
  exists (length (heap s)), s', (findings code).
  split; [apply validate_returns|]. split; [exact Hat|].
  split_and!.
  - intros Hslash. rewrite Hw. f_equal.
    unfold findings. fold lines. rewrite (Hdivision Hslash). cbn [app].
    rewrite existsb_filter, filter_none; [done|].
    intros f Hf. unfold is_warning. rewrite bool_decide_spec.
    by rewrite (error_findings_error _ _ Hf).
  - intros Hdot Hbracket. rewrite He. f_equal.
    unfold findings. fold lines.
    rewrite (Herrors Hdot Hbracket), app_nil_r.
    rewrite existsb_filter, filter_none; [done|].
    intros f Hf. unfold is_error. rewrite bool_decide_spec.
    by rewrite (division_findings_warning _ _ Hf).
  - intros Hslash Hdot Hbracket.
    assert (Hnone : findings code = []).
    { unfold findings. fold lines.
      by rewrite (Hdivision Hslash), (Herrors Hdot Hbracket). }
    split; [done|].
    rewrite (format_report_returns s' _ _ eq_refl Hat). by rewrite Hnone.
Qed.

End Validator.

(** ** The theorems at concrete inputs *)

(** C1 as the specification words it fails on [x = a // b / c]: the last
    [/] of the line is not part of a [//], no line is above it and [b]
    follows a [/], yet the check appends nothing, because the line
    contains [//]. *)
Lemma floor_division_line_unreported :
  let lines := split_lines (str "x = a // b / c") in
  division_condition_as_specified ascii_only lines 1 = true /\
  emitted (_check_division_operations ascii_only lines) = Some [].
Proof. by vm_compute. Qed.

(** C9 as stated fails for the None-comparison check: in
    [x = self.a < indicators["low"]] / [if y is None: pass] the lookback
    of line 1 finds the guard on the last line, and line 1 is reported
    all the same. *)
Lemma guarded_low_comparison_reported :
  let last_line := str "if y is None: pass" in
  let lines := split_lines (str "x = self.a < " ++ low_literal ++ nl ++ last_line) in
  last lines = Some last_line /\
  none_guard last_line = true /\
  scan_guard none_guard lines (range (Z.max 0 (1 - 5)) 1) empty_store
  = Returns true empty_store /\
  emitted (_check_none_comparisons lines) = Some [none_issue 1].
Proof. by vm_compute. Qed.

(** The division check on six lines, line 6 being [r = a / b]. *)
Lemma division_check_reports_witness :
  let lines := split_lines six_lines in
  5 < 6 /\
  division_condition ascii_only lines 6 (str "r = a / b") (str "b") /\
  exists found,
    emitted (_check_division_operations ascii_only lines) = Some found /\
    division_issue 6 (str "b") ∈ found.
Proof.
  intros lines.
  assert (Hcond : division_condition ascii_only lines 6 (str "r = a / b") (str "b"))
    by (vm_compute; repeat split).
  split; [lia|]. split; [exact Hcond|].
  destruct (division_check_reports ascii_only six_lines) as (found & Hemitted & _ & Hreports).
  exists found. split; [exact Hemitted|].
  apply (Hreports 6 (str "r = a / b") (str "b")); [lia|exact Hcond].
Defined.

(** The None-comparison check on a line with [indicators["low"]]. *)
Lemma none_comparison_grouping_witness :
  let line_ := str "if price < " ++ low_literal ++ str ":" in
  line_at (split_lines line_) 1 = Some line_ /\
  none_trigger line_ = true /\
  exists found,
    emitted (_check_none_comparisons (split_lines line_)) = Some found /\
    none_issue 1 ∈ found.
Proof.
  intros line_.
  assert (Hat : line_at (split_lines line_) 1 = Some line_) by (vm_compute; reflexivity).
  assert (Htrigger : none_trigger line_ = true) by (vm_compute; reflexivity).
  split; [exact Hat|]. split; [exact Htrigger|].
  destruct (none_comparison_grouping line_ 1 line_ Hat Htrigger)
    as (found & has_guard & Hemitted & _ & _ & Hlow).
  exists found. split; [exact Hemitted|].
  apply Hlow. vm_compute. reflexivity.
Defined.

(** The report of a warning, an [info] finding and an error: the [info]
    finding is in no section. *)
Lemma format_report_contents_witness :
  self_issues mixed_store = Some 0%nat /\
  heap mixed_store !! 0%nat = Some mixed_issues /\
  exists report,
    format_report mixed_store = Returns report mixed_store /\
    report <> no_issues_message /\
    report_sections mixed_issues = report_sections (take 1 mixed_issues ++ drop 2 mixed_issues).
Proof.
  split; [reflexivity|]. split; [reflexivity|].
  destruct (format_report_contents mixed_store 0 mixed_issues eq_refl eq_refl)
    as (report & Hreturns & Hempty & _ & Hskip).
  exists report. split; [exact Hreturns|]. split.
  - intros Hreport. apply Hempty in Hreport. discriminate Hreport.
  - apply (Hskip (take 1 mixed_issues) info_issue (drop 2 mixed_issues)).
    + reflexivity.
    + vm_compute. discriminate.
    + vm_compute. discriminate.
Defined.

(** The lookback of the only line of [result = a / b if b > 0 else 0]
    finds the guard on that very line, and the line is not reported. *)
Lemma lookback_reads_last_line_witness :
  let line_ := str "result = a / b if b > 0 else 0" in
  line_at (split_lines line_) 1 = Some line_ /\
  last (split_lines line_) = Some line_ /\
  (forall s, scan_guard zero_guard (split_lines line_) (range (Z.max 0 (1 - 5)) 1) s
             = Returns true s) /\
  exists division,
    emitted (_check_division_operations ascii_only (split_lines line_)) = Some division /\
    forall f, f ∈ division -> line f <> 1.
Proof.
  intros line_.
  assert (Hat : line_at (split_lines line_) 1 = Some line_) by (vm_compute; reflexivity).
  assert (Hlast : last (split_lines line_) = Some line_) by (vm_compute; reflexivity).
  assert (Hguard : zero_guard line_ = true) by (vm_compute; reflexivity).
  split; [exact Hat|]. split; [exact Hlast|].
  destruct (lookback_reads_last_line ascii_only line_ 1 line_ line_ Hat Hlast)
    as (_ & Hscan & (division & _ & _ & _ & Hdivision & _ & _ & _ & Hfive & _) & _).
  split.
  - intros s. destruct (Hscan 5 zero_guard ltac:(lia)) as (_ & _ & _ & Hresult).
    rewrite Hresult, Hguard. reflexivity.
  - exists division. split; [exact Hdivision|].
    intros f Hf Hline.
    destruct (proj1 (Hfive ltac:(lia) f) (conj Hf Hline)) as [Hno _].
    rewrite Hguard in Hno. discriminate Hno.
Defined.

(** The counts of a warning, an [info] finding and an error. *)
Lemma severity_counts_witness :
  get_error_count mixed_store = Returns 1 mixed_store /\
  get_warning_count mixed_store = Returns 1 mixed_store /\
  has_errors mixed_store = Returns true mixed_store /\
  has_warnings mixed_store = Returns true mixed_store.
Proof. exact (severity_counts mixed_store 0 mixed_issues eq_refl eq_refl). Defined.

(** ** [str.strip] *)

Lemma rev_is_reverse {A} (l : list A) : rev l = reverse l.
Proof. apply rev_alt. Qed.

Lemma lstrip_head s c : head (lstrip s) = Some c -> is_space c = false.
Proof.
  induction s as [|b s IH]; cbn [lstrip]; [done|].
  destruct (is_space b) eqn:Hb; [done|]. by intros [= <-].
Qed.

Lemma lstrip_fixed s : (forall c, head s = Some c -> is_space c = false) -> lstrip s = s.
Proof. destruct s as [|b s]; [done|]. intros Hs. cbn [lstrip]. by rewrite (Hs b). Qed.

Lemma lstrip_last s c : last (lstrip s) = Some c -> last s = Some c.
Proof.
  induction s as [|b s IH]; cbn [lstrip]; [done|].
  destruct (is_space b); [|done].
  intros Hc%IH. rewrite last_cons. by rewrite Hc.
Qed.

Lemma lstrip_spaces s : Forall (fun c => is_space c = true) s -> lstrip s = [].
Proof. induction 1 as [|b s Hb _ IH]; [done|]. cbn [lstrip]. by rewrite Hb. Qed.

Lemma rstrip_last s c : last (rstrip s) = Some c -> is_space c = false.
Proof.
  unfold rstrip. rewrite (rev_is_reverse (lstrip _)), last_reverse. apply lstrip_head.
Qed.

Lemma rstrip_head s c : head (rstrip s) = Some c -> head s = Some c.
Proof.
  unfold rstrip. rewrite (rev_is_reverse (lstrip _)).
  rewrite <- (reverse_involutive (lstrip (rev s))), reverse_involutive.
  rewrite <- last_reverse, reverse_involutive.
  intros Hc%lstrip_last. by rewrite rev_is_reverse, last_reverse in Hc.
Qed.

Lemma rstrip_fixed s : (forall c, last s = Some c -> is_space c = false) -> rstrip s = s.
Proof.
  intros Hs. unfold rstrip. rewrite lstrip_fixed; [apply rev_involutive|].
  intros c. rewrite rev_is_reverse. rewrite <- (reverse_involutive s) in Hs.
  rewrite last_reverse in Hs. apply Hs.
Qed.

Lemma strip_head s c : head (strip s) = Some c -> is_space c = false.
Proof. unfold strip. intros Hc%rstrip_head. by eapply lstrip_head. Qed.

Lemma strip_last s c : last (strip s) = Some c -> is_space c = false.
Proof. unfold strip. apply rstrip_last. Qed.

Lemma strip_fixed s :
  (forall c, head s = Some c -> is_space c = false) ->
  (forall c, last s = Some c -> is_space c = false) ->
  strip s = s.
Proof. intros Hh Hl. unfold strip. rewrite (lstrip_fixed s Hh). by apply rstrip_fixed. Qed.

Lemma strip_strip s : strip (strip s) = strip s.
Proof. apply strip_fixed; [apply strip_head|apply strip_last]. Qed.

Lemma strip_spaces s : Forall (fun c => is_space c = true) s -> strip s = [].
Proof. intros Hs. unfold strip. by rewrite (lstrip_spaces s Hs). Qed.

(** ** The client of the language model *)

(** [LLMClient(...)] raises [ValueError] exactly when neither the
    argument nor the environment gives a non-empty key, also when the SDK
    is missing; with a key and without the SDK it raises [ImportError];
    otherwise the client holds the argument's key if that is non-empty
    and the key of the environment if not, and the default model when no
    model is given. *)
Theorem client_construction (sdk_installed : bool) (getenv model_ api_key : option text) :
  (LLMClient.__init__ sdk_installed getenv model_ api_key = LLMClient.ValueError <->
   LLMClient.truthy api_key = false /\ LLMClient.truthy getenv = false) /\
  (LLMClient.__init__ sdk_installed getenv model_ api_key = LLMClient.ImportError <->
   LLMClient.truthy api_key || LLMClient.truthy getenv = true /\ sdk_installed = false) /\
  (forall self,
     LLMClient.__init__ sdk_installed getenv model_ api_key = LLMClient.Client self <->
     sdk_installed = true /\
     LLMClient.self_model self = default LLMClient.default_model model_ /\
     LLMClient.self_api_key self <> [] /\
     (if LLMClient.truthy api_key
      then api_key = Some (LLMClient.self_api_key self)
      else getenv = Some (LLMClient.self_api_key self))).
Proof.
  unfold LLMClient.__init__.
  destruct api_key as [[|c key]|], getenv as [[|c' key']|], sdk_installed;
    cbn [LLMClient.truthy orb]; split_and!; try (split; [done|naive_solver]);
    try (split; [naive_solver|done]);
    intros [m k]; cbn [LLMClient.self_model LLMClient.self_api_key];
    split; try done; try (intros [= <- <-]; done);
    try (by intros (_ & -> & _ & [= <-])); try (by intros (? & _)).
Qed.

Section ClientFacts.

Context {value : Type} (has_len : value -> bool).
Context (default_max_tokens default_temperature : value).
Context (create : LLMClient.request value -> LLMClient.api_outcome).

Local Abbreviation object := (LLMClient.object value).
Local Abbreviation argument := (LLMClient.argument value).
Local Abbreviation try_chat_completion := (LLMClient.try_chat_completion value has_len create).
Local Abbreviation chat_completion :=
  (LLMClient.chat_completion value has_len default_max_tokens default_temperature create).
Local Abbreviation simple_prompt :=
  (LLMClient.simple_prompt value has_len default_max_tokens default_temperature create).

Lemma has_key_true (kwargs : gmap string object) p :
  LLMClient.has_key value kwargs p = true <-> is_Some (kwargs !! p).
Proof. unfold LLMClient.has_key. destruct (kwargs !! p); split; try done; by intros [? ?]. Qed.

Lemma has_key_false (kwargs : gmap string object) p :
  LLMClient.has_key value kwargs p = false <-> kwargs !! p = None.
Proof. unfold LLMClient.has_key. by destruct (kwargs !! p). Qed.

Lemma try_chat_completion_result self messages max_tokens temperature kwargs :
  let sent := {| LLMClient.request_model := LLMClient.self_model self;
                 LLMClient.request_messages := messages;
                 LLMClient.request_max_tokens := max_tokens;
                 LLMClient.request_temperature := temperature;
                 LLMClient.request_extra := kwargs |} in
  let outcome := try_chat_completion self messages max_tokens temperature kwargs in
  outcome <> LLMClient.raises_TypeError /\
  (outcome = LLMClient.raises_BaseException <->
   LLMClient.len_returns value has_len messages = true /\ kwargs !! "model" = None /\
   create sent = LLMClient.api_raises_BaseException) /\
  (forall r,
     outcome = LLMClient.returns (Some r) <->
     LLMClient.len_returns value has_len messages = true /\ kwargs !! "model" = None /\
     exists response choice others raw total,
       create sent = LLMClient.api_returns response /\
       LLMClient.choices response = choice :: others /\
       LLMClient.message_content choice = Some raw /\
       LLMClient.usage_total_tokens response = Some total /\
       r = {| LLMClient.content := strip raw;
              LLMClient.model := LLMClient.completion_model response;
              LLMClient.tokens_used := total;
              LLMClient.finish_reason := LLMClient.choice_finish_reason choice |}) /\
  (outcome = LLMClient.returns None <->
   LLMClient.len_returns value has_len messages = false \/
   is_Some (kwargs !! "model") \/
   create sent = LLMClient.api_raises \/
   create sent = LLMClient.api_returns_other \/
   exists response,
     create sent = LLMClient.api_returns response /\
     (LLMClient.choices response = [] \/
      (exists choice others,
         LLMClient.choices response = choice :: others /\
         LLMClient.message_content choice = None) \/
      LLMClient.usage_total_tokens response = None)).
Proof.
  intros sent outcome. subst outcome. unfold LLMClient.try_chat_completion. fold sent.
  destruct (LLMClient.len_returns value has_len messages) eqn:Hlen; cbn [negb].
  2:{ split_and!; [done|naive_solver|naive_solver|naive_solver]. }
  destruct (LLMClient.has_key value kwargs "model") eqn:Hmodel.
  { apply has_key_true in Hmodel. destruct Hmodel as [v Hv].
    split_and!; [done| | |]; [split; [done|]; rewrite Hv; naive_solver..|].
    split; [|done]. intros _. right. left. by exists v. }
  apply has_key_false in Hmodel. rewrite Hmodel.
  assert (~ is_Some (@None object)) as Hnone by (by intros [? ?]).
  destruct (create sent) as [response| | |] eqn:Hcreate;
    [|split_and!; [done|naive_solver..]|split_and!; [done|naive_solver..]
     |split_and!; [done|naive_solver..]].
  destruct (LLMClient.choices response) as [|choice others] eqn:Hchoices;
    cbn [lookup list_lookup].
  { split_and!; [done|naive_solver| |].
    - intros r. split; [done|].
      intros (_ & _ & response' & ? & ? & ? & ? & [= <-] & Hc & _).
      by rewrite Hchoices in Hc.
    - split; [|done]. intros _. do 4 right. exists response. naive_solver. }
  destruct (LLMClient.message_content choice) as [raw|] eqn:Hraw.
  2:{ split_and!; [done|naive_solver| |].
      - intros r. split; [done|].
        intros (_ & _ & response' & ? & ? & ? & ? & [= <-] & Hc & Hr & _).
        rewrite Hchoices in Hc. injection Hc as <- <-. by rewrite Hraw in Hr.
      - split; [|done]. intros _. do 4 right. exists response. naive_solver. }
  destruct (LLMClient.usage_total_tokens response) as [total|] eqn:Husage.
  2:{ split_and!; [done|naive_solver| |].
      - intros r. split; [done|].
        intros (_ & _ & response' & ? & ? & ? & ? & [= <-] & _ & _ & Hu & _).
        by rewrite Husage in Hu.
      - split; [|done]. intros _. do 4 right. exists response. naive_solver. }
  split_and!; [done|naive_solver| |].
  - intros r. split.
    + intros [= <-]. split_and!; [done..|]. by exists response, choice, others, raw, total.
    + intros (_ & _ & response' & choice' & others' & raw' & total' & [= <-] & Hc & Hr & Hu & ->).
      rewrite Hchoices in Hc. injection Hc as <- <-.
      rewrite Hraw in Hr. injection Hr as <-.
      rewrite Husage in Hu. by injection Hu as <-.
  - split; [done|]. intros [?|[?|[?|[?|(response' & [= <-] & Hcases)]]]]; try done.
    rewrite Hchoices, Husage in Hcases.
    destruct Hcases as [?|[(choice' & others' & [= <- <-] & Hr)|?]]; try done.
    by rewrite Hraw in Hr.
Qed.

(** What the binding of the arguments of [chat_completion] gives. *)
Lemma chat_completion_binding self (args : list object) (kwargs : gmap string object) :
  let given (i : nat) (p : string) := (i < length args)%nat /\ is_Some (kwargs !! p) in
  let fails :=
    (3 < length args)%nat \/ is_Some (kwargs !! "self") \/
    given 0%nat "messages"%string \/ given 1%nat "max_tokens"%string \/
    given 2%nat "temperature"%string \/
    argument args kwargs 0 "messages" = None in
  (fails /\ chat_completion self args kwargs = LLMClient.raises_TypeError) \/
  (~ fails /\
   exists messages,
     argument args kwargs 0 "messages" = Some messages /\
     chat_completion self args kwargs =
     try_chat_completion self messages
       (default (LLMClient.opaque value default_max_tokens)
                (argument args kwargs 1 "max_tokens"))
       (default (LLMClient.opaque value default_temperature)
                (argument args kwargs 2 "temperature"))
       (delete "messages" (delete "max_tokens" (delete "temperature" kwargs)))).
Proof.
  intros given fails. subst given fails.
  unfold LLMClient.chat_completion, LLMClient.bind_arguments, LLMClient.argument.
  destruct args as [|a0 [|a1 [|a2 [|a3 args]]]];
    cbn [length Nat.ltb Nat.leb take existsb imap foldr lookup list_lookup orb];
    unfold LLMClient.has_key, LLMClient.argument, compose; cbn beta;
    cbn [lookup list_lookup];
    destruct (kwargs !! "self") as [v_self|] eqn:Hself;
    destruct (kwargs !! "messages") as [v_messages|] eqn:Hmessages;
    destruct (kwargs !! "max_tokens") as [v_max_tokens|] eqn:Hmax_tokens;
    destruct (kwargs !! "temperature") as [v_temperature|] eqn:Htemperature;
    cbn [orb];
    first
      [ left; split; [|reflexivity];
        first [ left; simpl; lia
              | right; left; by eexists
              | do 2 right; left; split; [simpl; lia|by eexists]
              | do 3 right; left; split; [simpl; lia|by eexists]
              | do 4 right; left; split; [simpl; lia|by eexists]
              | do 5 right; reflexivity ]
      | right; split;
        [ intros Hfails; unfold is_Some in Hfails; simpl in Hfails; naive_solver lia
        | eexists; split; reflexivity ] ].
Qed.

(** [chat_completion] raises [TypeError], at the binding of its arguments
    and so past its [try], exactly when more than three arguments come by
    position, a keyword names [self] or a parameter given by position, or
    [messages] is not given. Otherwise the request sent has the model of
    the client, the [messages], the [max_tokens] and [temperature] given
    or else the defaults, and the other keywords; the call passes on a
    [BaseException] of the SDK, returns a response built from the first
    choice of the SDK's answer, its content stripped (the content neither
    starts nor ends with whitespace), and returns [None] exactly when
    [len(messages)] fails, a keyword is named [model], the SDK raises an
    [Exception] or returns no completion, the answer has no choice, or
    the content of the first choice or the usage is [None]. *)
Theorem chat_completion_result (self : LLMClient.client) (args : list object)
    (kwargs : gmap string object) :
  let outcome := chat_completion self args kwargs in
  let given (i : nat) (p : string) := (i < length args)%nat /\ is_Some (kwargs !! p) in
  (outcome = LLMClient.raises_TypeError <->
   (3 < length args)%nat \/ is_Some (kwargs !! "self") \/
   given 0%nat "messages"%string \/ given 1%nat "max_tokens"%string \/
   given 2%nat "temperature"%string \/
   argument args kwargs 0 "messages" = None) /\
  forall messages,
    outcome <> LLMClient.raises_TypeError ->
    argument args kwargs 0 "messages" = Some messages ->
    let sent :=
      {| LLMClient.request_model := LLMClient.self_model self;
         LLMClient.request_messages := messages;
         LLMClient.request_max_tokens :=
           default (LLMClient.opaque value default_max_tokens)
                   (argument args kwargs 1 "max_tokens");
         LLMClient.request_temperature :=
           default (LLMClient.opaque value default_temperature)
                   (argument args kwargs 2 "temperature");
         LLMClient.request_extra :=
           delete "messages" (delete "max_tokens" (delete "temperature" kwargs)) |} in
    (outcome = LLMClient.raises_BaseException <->
     LLMClient.len_returns value has_len messages = true /\ kwargs !! "model" = None /\
     create sent = LLMClient.api_raises_BaseException) /\
    (forall r,
       outcome = LLMClient.returns (Some r) <->
       LLMClient.len_returns value has_len messages = true /\ kwargs !! "model" = None /\
       exists response choice others raw total,
         create sent = LLMClient.api_returns response /\
         LLMClient.choices response = choice :: others /\
         LLMClient.message_content choice = Some raw /\
         LLMClient.usage_total_tokens response = Some total /\
         r = {| LLMClient.content := strip raw;
                LLMClient.model := LLMClient.completion_model response;
                LLMClient.tokens_used := total;
                LLMClient.finish_reason := LLMClient.choice_finish_reason choice |}) /\
    (forall r,
       outcome = LLMClient.returns (Some r) ->
       strip (LLMClient.content r) = LLMClient.content r /\
       (forall c, head (LLMClient.content r) = Some c -> is_space c = false) /\
       (forall c, last (LLMClient.content r) = Some c -> is_space c = false)) /\
    (outcome = LLMClient.returns None <->
     LLMClient.len_returns value has_len messages = false \/
     is_Some (kwargs !! "model") \/
     create sent = LLMClient.api_raises \/
     create sent = LLMClient.api_returns_other \/
     exists response,
       create sent = LLMClient.api_returns response /\
       (LLMClient.choices response = [] \/
        (exists choice others,
           LLMClient.choices response = choice :: others /\
           LLMClient.message_content choice = None) \/
        LLMClient.usage_total_tokens response = None)).
Proof.
  intros outcome given. subst outcome.
  destruct (chat_completion_binding self args kwargs)
    as [[Hfails Hcall]|(Hbinds & messages & Hmessages & Hcall)].
  { split; [done|]. by intros messages' Hraise. }
  pose proof (try_chat_completion_result self messages
    (default (LLMClient.opaque value default_max_tokens) (argument args kwargs 1 "max_tokens"))
    (default (LLMClient.opaque value default_temperature) (argument args kwargs 2 "temperature"))
    (delete "messages" (delete "max_tokens" (delete "temperature" kwargs)))) as Htry.
  cbv zeta in Htry. rewrite <- Hcall in Htry.
  rewrite !lookup_delete_ne in Htry by done.
  destruct Htry as (Hno & Hbase & Hsome & Hnone).
  split; [split; [done|by intros ?%Hbinds]|].
  intros messages' _ Hmessages'. rewrite Hmessages in Hmessages'.
  injection Hmessages' as <-. intros sent. subst sent.
  split_and!; [done|done| |done].
  intros r (_ & _ & response & choice & others & raw & total & _ & _ & _ & _ & ->)%Hsome.
  cbn [LLMClient.content].
  split_and!; [apply strip_strip|apply strip_head|apply strip_last].
Qed.

Lemma chat_completion_one_argument self (messages : object) (kwargs : gmap string object) :
  kwargs !! "self" = None ->
  chat_completion self [messages] kwargs =
  if LLMClient.has_key value kwargs "messages" then LLMClient.raises_TypeError
  else try_chat_completion self messages
         (default (LLMClient.opaque value default_max_tokens) (kwargs !! "max_tokens"))
         (default (LLMClient.opaque value default_temperature) (kwargs !! "temperature"))
         (delete "messages" (delete "max_tokens" (delete "temperature" kwargs))).
Proof.
  intros Hself.
  unfold LLMClient.chat_completion, LLMClient.bind_arguments.
  cbn [length Nat.ltb Nat.leb take existsb imap foldr orb].
  unfold LLMClient.has_key, LLMClient.argument, compose. cbn beta.
  cbn [lookup list_lookup]. rewrite Hself.
  by destruct (kwargs !! "messages").
Qed.

(** The response of [chat_completion] as [simple_prompt] returns it. *)
Local Abbreviation content_of response :=
  (match response with
   | LLMClient.returns (Some r) => LLMClient.returns (Some (LLMClient.content r))
   | LLMClient.returns None => LLMClient.returns None
   | LLMClient.raises_TypeError => LLMClient.raises_TypeError
   | LLMClient.raises_BaseException => LLMClient.raises_BaseException
   end).

(** What the binding of the arguments of [simple_prompt], and of those
    of its call of [chat_completion], gives. *)
Lemma simple_prompt_binding self (args : list object) (kwargs : gmap string object) :
  let given (i : nat) (p : string) := (i < length args)%nat /\ is_Some (kwargs !! p) in
  let fails :=
    (2 < length args)%nat \/ is_Some (kwargs !! "self") \/
    given 0%nat "system_message"%string \/ given 1%nat "user_message"%string \/
    argument args kwargs 0 "system_message" = None \/
    argument args kwargs 1 "user_message" = None \/
    is_Some (kwargs !! "messages") in
  (fails /\ simple_prompt self args kwargs = LLMClient.raises_TypeError) \/
  (~ fails /\
   exists system_message user_message,
     argument args kwargs 0 "system_message" = Some system_message /\
     argument args kwargs 1 "user_message" = Some user_message /\
     simple_prompt self args kwargs =
     content_of
       (try_chat_completion self
          (LLMClient.a_list value
             [ LLMClient.a_dict value
                 [("role", LLMClient.a_str value (str "system"));
                  ("content", system_message)]%string;
               LLMClient.a_dict value
                 [("role", LLMClient.a_str value (str "user"));
                  ("content", user_message)]%string ])
          (default (LLMClient.opaque value default_max_tokens) (kwargs !! "max_tokens"))
          (default (LLMClient.opaque value default_temperature) (kwargs !! "temperature"))
          (delete "messages" (delete "max_tokens" (delete "temperature"
             (delete "system_message" (delete "user_message" kwargs))))))).
Proof.
  intros given fails. subst given fails.
  unfold LLMClient.simple_prompt, LLMClient.bind_arguments, LLMClient.argument.
  destruct args as [|a0 [|a1 [|a2 args]]];
    cbn [length Nat.ltb Nat.leb take existsb imap foldr lookup list_lookup orb];
    unfold LLMClient.has_key, LLMClient.argument, compose; cbn beta;
    cbn [lookup list_lookup];
    destruct (kwargs !! "self") as [v_self|] eqn:Hself;
    destruct (kwargs !! "system_message") as [v_system|] eqn:Hsystem;
    destruct (kwargs !! "user_message") as [v_user|] eqn:Huser;
    cbn [orb];
    try (left; split; [|reflexivity];
         first [ left; simpl; lia
               | right; left; by eexists
               | do 2 right; left; split; [simpl; lia|by eexists]
               | do 3 right; left; split; [simpl; lia|by eexists]
               | do 4 right; left; reflexivity
               | do 5 right; left; reflexivity ]);
    (rewrite chat_completion_one_argument by (by rewrite !lookup_delete_ne by done));
    unfold LLMClient.has_key; rewrite !lookup_delete_ne by done;
    (destruct (kwargs !! "messages") as [v_messages|] eqn:Hmessages;
     [ left; split; [do 6 right; by eexists|reflexivity]
     | right; split;
       [ intros Hfails; unfold is_Some in Hfails; simpl in Hfails; naive_solver lia
       | eexists _, _; split_and!; reflexivity ] ]).
Qed.

(** [simple_prompt] raises [TypeError] exactly when more than two
    arguments come by position, a keyword names [self] or a parameter
    given by position, [system_message] or [user_message] is not given, or
    a keyword is named [messages]. Otherwise it sends the system message
    and the user message, in this order, with the [max_tokens] and
    [temperature] of the keywords or else the defaults, and the other
    keywords; it passes on a [BaseException] of the SDK, returns the
    content of the first choice of the SDK's answer, stripped, and returns
    [None] exactly when a keyword is named [model], the SDK raises an
    [Exception] or returns no completion, the answer has no choice, or
    the content of the first choice or the usage is [None]. *)
Theorem simple_prompt_result (self : LLMClient.client) (args : list object)
    (kwargs : gmap string object) :
  let outcome := simple_prompt self args kwargs in
  let given (i : nat) (p : string) := (i < length args)%nat /\ is_Some (kwargs !! p) in
  (outcome = LLMClient.raises_TypeError <->
   (2 < length args)%nat \/ is_Some (kwargs !! "self") \/
   given 0%nat "system_message"%string \/ given 1%nat "user_message"%string \/
   argument args kwargs 0 "system_message" = None \/
   argument args kwargs 1 "user_message" = None \/
   is_Some (kwargs !! "messages")) /\
  forall system_message user_message,
    outcome <> LLMClient.raises_TypeError ->
    argument args kwargs 0 "system_message" = Some system_message ->
    argument args kwargs 1 "user_message" = Some user_message ->
    let sent :=
      {| LLMClient.request_model := LLMClient.self_model self;
         LLMClient.request_messages :=
           LLMClient.a_list value
             [ LLMClient.a_dict value
                 [("role", LLMClient.a_str value (str "system"));
                  ("content", system_message)]%string;
               LLMClient.a_dict value
                 [("role", LLMClient.a_str value (str "user"));
                  ("content", user_message)]%string ];
         LLMClient.request_max_tokens :=
           default (LLMClient.opaque value default_max_tokens) (kwargs !! "max_tokens");
         LLMClient.request_temperature :=
           default (LLMClient.opaque value default_temperature) (kwargs !! "temperature");
         LLMClient.request_extra :=
           delete "messages" (delete "max_tokens" (delete "temperature"
             (delete "system_message" (delete "user_message" kwargs)))) |} in
    (outcome = LLMClient.raises_BaseException <->
     kwargs !! "model" = None /\ create sent = LLMClient.api_raises_BaseException) /\
    (forall t,
       outcome = LLMClient.returns (Some t) <->
       kwargs !! "model" = None /\
       exists response choice others raw,
         create sent = LLMClient.api_returns response /\
         LLMClient.choices response = choice :: others /\
         LLMClient.message_content choice = Some raw /\
         is_Some (LLMClient.usage_total_tokens response) /\
         t = strip raw) /\
    (forall t,
       outcome = LLMClient.returns (Some t) ->
       strip t = t /\
       (forall c, head t = Some c -> is_space c = false) /\
       (forall c, last t = Some c -> is_space c = false)) /\
    (outcome = LLMClient.returns None <->
     is_Some (kwargs !! "model") \/
     create sent = LLMClient.api_raises \/
     create sent = LLMClient.api_returns_other \/
     exists response,
       create sent = LLMClient.api_returns response /\
       (LLMClient.choices response = [] \/
        (exists choice others,
           LLMClient.choices response = choice :: others /\
           LLMClient.message_content choice = None) \/
        LLMClient.usage_total_tokens response = None)).
Proof.
  intros outcome given. subst outcome.
  destruct (simple_prompt_binding self args kwargs)
    as [[Hfails Hcall]|(Hbinds & system_message & user_message & Hsystem & Huser & Hcall)].
  { split; [done|]. by intros ? ? Hraise. }
  set (messages :=
         LLMClient.a_list value
           [ LLMClient.a_dict value
               [("role", LLMClient.a_str value (str "system"));
                ("content", system_message)]%string;
             LLMClient.a_dict value
               [("role", LLMClient.a_str value (str "user"));
                ("content", user_message)]%string ]) in *.
  pose proof (try_chat_completion_result self messages
    (default (LLMClient.opaque value default_max_tokens) (kwargs !! "max_tokens"))
    (default (LLMClient.opaque value default_temperature) (kwargs !! "temperature"))
    (delete "messages" (delete "max_tokens" (delete "temperature"
       (delete "system_message" (delete "user_message" kwargs)))))) as Htry.
  cbv zeta in Htry. rewrite !lookup_delete_ne in Htry by done.
  destruct Htry as (Hno & Hbase & Hsome & Hnone).
  rewrite Hcall.
  set (response := try_chat_completion self messages _ _ _) in *.
  assert (Hlen : LLMClient.len_returns value has_len messages = true) by done.
  assert (Hnot : content_of response <> LLMClient.raises_TypeError).
  { by destruct response as [[r|]| |] eqn:Hresponse. }
  split; [split; [done|by intros ?%Hbinds]|].
  intros system_message' user_message' _ Hsystem' Huser'.
  rewrite Hsystem in Hsystem'. injection Hsystem' as <-.
  rewrite Huser in Huser'. injection Huser' as <-.
  intros sent. subst sent. fold messages.
  split_and!.
  - transitivity (response = LLMClient.raises_BaseException);
      [by destruct response as [[r|]| |]|].
    rewrite Hbase. naive_solver.
  - intros t. split.
    + intros Ht. destruct response as [[r|]| |] eqn:Hresponse; try done.
      injection Ht as <-.
      destruct (proj1 (Hsome r) eq_refl)
        as (_ & Hmodel & resp & choice & others & raw & total & Hc & Hch & Hraw & Hu & ->).
      split; [done|]. exists resp, choice, others, raw. by split_and!.
    + intros (Hmodel & resp & choice & others & raw & Hc & Hch & Hraw & [total Hu] & ->).
      rewrite (proj2 (Hsome _)
                 (conj Hlen (conj Hmodel
                    (ex_intro _ resp (ex_intro _ choice (ex_intro _ others
                       (ex_intro _ raw (ex_intro _ total
                          (conj Hc (conj Hch (conj Hraw (conj Hu eq_refl)))))))))))).
      done.
  - intros t Ht. destruct response as [[r|]| |] eqn:Hresponse; try done.
    injection Ht as <-.
    destruct (proj1 (Hsome r) eq_refl)
      as (_ & _ & resp & choice & others & raw & total & _ & _ & _ & _ & ->).
    cbn [LLMClient.content].
    split_and!; [apply strip_strip|apply strip_head|apply strip_last].
  - split.
    + intros Ht. destruct response as [[r|]| |] eqn:Hresponse; try done.
      destruct (proj1 Hnone eq_refl) as [Hl|Hrest]; [congruence|done].
    + intros Hcases. by rewrite (proj2 Hnone (or_intror Hcases)).
Qed.

End ClientFacts.

(** A call with the messages and [max_tokens] by position and the
    temperature by keyword, answered by [  ok ]: the response holds
    [ok]. *)
Lemma chat_completion_result_witness :
  let self := {| LLMClient.self_model := str "gpt"; LLMClient.self_api_key := str "k" |} in
  let answer :=
    {| LLMClient.choices :=
         [ {| LLMClient.message_content := Some (str "  ok ");
              LLMClient.choice_finish_reason := str "stop" |} ];
       LLMClient.completion_model := str "gpt";
       LLMClient.usage_total_tokens := Some 7 |} in
  let create := fun _ : LLMClient.request unit => LLMClient.api_returns answer in
  let args := [LLMClient.a_list unit []; LLMClient.opaque unit tt] in
  let kwargs : gmap string (LLMClient.object unit) :=
    {[ "temperature"%string := LLMClient.opaque unit tt ]} in
  LLMClient.chat_completion unit (fun _ => true) tt tt create self args kwargs =
  LLMClient.returns
    (Some {| LLMClient.content := str "ok"; LLMClient.model := str "gpt";
             LLMClient.tokens_used := 7; LLMClient.finish_reason := str "stop" |}).
Proof.
  intros self answer create args kwargs.
  destruct (chat_completion_result (fun _ => true) tt tt create self args kwargs)
    as [Htype Hrest].
  assert (Hbinds :
    LLMClient.chat_completion unit (fun _ => true) tt tt create self args kwargs
    <> LLMClient.raises_TypeError).
  { intros Hraise. apply Htype in Hraise.
    destruct Hraise as [H|[[? H]|[[_ [? H]]|[[_ [? H]]|[[H _]|H]]]]];
      first [ simpl in H; lia | vm_compute in H; discriminate H ]. }
  destruct (Hrest (LLMClient.a_list unit []) Hbinds eq_refl) as (_ & Hsome & _).
  apply Hsome. split; [reflexivity|]. split; [vm_compute; reflexivity|].
  eexists answer, _, [], (str "  ok "), 7.
  split; [reflexivity|]. split; [reflexivity|]. split; [reflexivity|].
  split; [reflexivity|]. vm_compute. reflexivity.
Defined.

(** A prompt with both messages by keyword, answered by [  ok ]: the
    answer is [ok]. *)
Lemma simple_prompt_result_witness :
  let self := {| LLMClient.self_model := str "gpt"; LLMClient.self_api_key := str "k" |} in
  let answer :=
    {| LLMClient.choices :=
         [ {| LLMClient.message_content := Some (str "  ok ");
              LLMClient.choice_finish_reason := str "stop" |} ];
       LLMClient.completion_model := str "gpt";
       LLMClient.usage_total_tokens := Some 7 |} in
  let create := fun _ : LLMClient.request unit => LLMClient.api_returns answer in
  let kwargs : gmap string (LLMClient.object unit) :=
    {[ "system_message"%string := LLMClient.a_str unit (str "sys");
       "user_message"%string := LLMClient.a_str unit (str "usr") ]} in
  LLMClient.simple_prompt unit (fun _ => true) tt tt create self [] kwargs =
  LLMClient.returns (Some (str "ok")).
Proof.
  intros self answer create kwargs.
  destruct (simple_prompt_result (fun _ => true) tt tt create self [] kwargs)
    as [Htype Hrest].
  assert (Hbinds :
    LLMClient.simple_prompt unit (fun _ => true) tt tt create self [] kwargs
    <> LLMClient.raises_TypeError).
  { intros Hraise. apply Htype in Hraise.
    destruct Hraise as [H|[[? H]|[[H _]|[[H _]|[H|[H|[? H]]]]]]];
      first [ simpl in H; lia | vm_compute in H; discriminate H ]. }
  destruct (Hrest (LLMClient.a_str unit (str "sys")) (LLMClient.a_str unit (str "usr"))
              Hbinds ltac:(vm_compute; reflexivity) ltac:(vm_compute; reflexivity))
    as (_ & Hsome & _).
  change (str "ok") with (strip (str "  ok ")) at 1.
  apply Hsome. split; [vm_compute; reflexivity|].
  eexists answer, _, [], (str "  ok ").
  split; [reflexivity|]. split; [reflexivity|]. split; [reflexivity|].
  split; [by eexists|]. reflexivity.
Defined.

(** ** The download of an article *)

Section DownloadFacts.

Context {value : Type} (truth : value -> bool).
Context (as_dict : value -> option (gmap string value)) (format : value -> text).
Context (get : utils.request value -> utils.http_outcome value).
Context (open_wb : text -> bool) (unpaywall_email : option text).
Context (get_article get_pdf : utils.request value -> option (utils.http_outcome value)).
Context (error_text : utils.request value -> text).
Context (write_fails : text -> list N -> option nat).

Local Abbreviation get_pdf_url_via_unpaywall :=
  (utils.get_pdf_url_via_unpaywall value truth as_dict format get).
Local Abbreviation download_pdf :=
  (utils.download_pdf value truth as_dict format get open_wb unpaywall_email
     get_article get_pdf error_text write_fails).
Local Abbreviation pdf_type response :=
  (contains (str "application/pdf") (default [] (utils.content_type response))).


(** What [download_pdf] leaves in the files. *)
Lemma download_pdf_files article_url save_path doi files :
  match download_pdf article_url save_path doi files with
  | (_, files', utils.completes true) =>
      exists r response,
        (get_article r = Some (utils.http_response response) \/
         get_pdf r = Some (utils.http_response response)) /\
        utils.status_ok response = true /\
        files' = <[save_path := utils.content response]> files
  | (_, files', utils.fails utils.failed_write) =>
      exists body n, files' = <[save_path := take n body]> files
  | (_, files', _) => files' = files
  end.
Proof.
  unfold utils.download_pdf, utils.save.
  destruct (get_article _) as [[response|]|] eqn:Hget; [|done|done].
  destruct (utils.status_ok response) eqn:Hok; cbn [negb]; [|done].
  destruct (pdf_type response).
  { destruct (open_wb save_path); [|done].
    destruct (write_fails _ _); [by eexists _, _|].
    eexists _, response. by eauto. }
  destruct doi as [doi_|]; [|done].
  destruct (truth doi_); [|done].
  destruct (get_pdf_url_via_unpaywall _ _) as [[pdf_url|]|e]; [|done|done].
  destruct (truth pdf_url); [|done].
  destruct (get_pdf _) as [[response'|]|] eqn:Hget'; [|done|done].
  destruct (utils.status_ok response') eqn:Hok'; cbn [negb]; [|done].
  destruct (open_wb save_path); [|done].
  destruct (write_fails _ _); [by eexists _, _|].
  eexists _, response'. by eauto.
Qed.



Ltac not_saved :=
  split; [done|]; intros (? & ? & ? & ? & ? & ?); simplify_eq; congruence.

(** Without a DOI ([None] or a falsy one) the direct request decides.
    Nothing is asked of Unpaywall and no second request is made,
    whatever their answers would be: the events are records and the one
    request for the article's URL. [download_pdf] returns [True] exactly
    when the direct answer has no error status and a PDF content type and
    its body is written, in full, to [save_path]. *)
Theorem download_pdf_without_doi (article_url : value) (save_path : text) (doi : option value)
    (files : gmap text (list N)) :
  utils.truthy value truth doi = false ->
  let direct := {| utils.request_target := utils.target_value article_url;
                   utils.request_params := ∅;
                   utils.request_headers := utils.user_agent;
                   utils.request_allow_redirects := Some true |} in
  let '(events, files', result) := download_pdf article_url save_path doi files in
  (forall get' get_pdf',
     utils.download_pdf value truth as_dict format get' open_wb unpaywall_email
       get_article get_pdf' error_text write_fails article_url save_path doi files
     = (events, files', result)) /\
  (forall e, e ∈ events -> (exists l message, e = utils.logged l message) \/
                           e = utils.called_get direct) /\
  (result = utils.completes true <->
   exists response,
     get_article direct = Some (utils.http_response response) /\
     utils.status_ok response = true /\ pdf_type response = true /\
     open_wb save_path = true /\
     write_fails save_path (utils.content response) = None) /\
  (result = utils.completes true ->
   forall response,
     get_article direct = Some (utils.http_response response) ->
     files' = <[save_path := utils.content response]> files).
Proof.
  intros Hdoi direct. unfold utils.download_pdf, utils.save. fold direct.
  assert (Hevents : forall (e : utils.event value) events,
            Forall (fun e => (exists l message, e = utils.logged l message) \/
                             e = utils.called_get direct) events ->
            e ∈ events ->
            (exists l message, e = utils.logged l message) \/ e = utils.called_get direct).
  { intros e events Hall He. by apply (proj1 (Forall_forall _ _) Hall). }
  destruct (get_article direct) as [[response|]|] eqn:Hget; cbn [negb app].
  3:{ split_and!; [done| |not_saved|done].
      intros e. apply Hevents. repeat constructor; by eauto. }
  2:{ split_and!; [done| |not_saved|done].
      intros e. apply Hevents. repeat constructor; by eauto. }
  destruct (utils.status_ok response) eqn:Hok; cbn [negb app].
  2:{ split_and!; [done| |not_saved|done].
      intros e. apply Hevents. repeat constructor; by eauto. }
  destruct (pdf_type response) eqn:Hpdf.
  { destruct (open_wb save_path) eqn:Hopen.
    2:{ split_and!; [done| |not_saved|done].
        intros e. apply Hevents. repeat constructor; by eauto. }
    destruct (write_fails save_path (utils.content response)) as [n|] eqn:Hwrite;
      cbn [app].
    - split_and!; [done| |not_saved|done].
      intros e. apply Hevents. repeat constructor; by eauto.
    - split_and!; [done| | |].
      + intros e. apply Hevents. repeat constructor; by eauto.
      + split; [|done]. intros _. by exists response.
      + by intros _ response' [= <-]. }
  cbn [app].
  destruct doi as [doi_|]; cbn in Hdoi; rewrite ?Hdoi.
  - split_and!; [done| |not_saved|done].
    intros e. apply Hevents. repeat constructor; by eauto.
  - split_and!; [done| |not_saved|done].
    intros e. apply Hevents. repeat constructor; by eauto.
Qed.

End DownloadFacts.

(** ** The commands on the list of articles *)

Section CommandFacts.

Context {value : Type} (truth : value -> bool).
Context (as_dict : value -> option (gmap string value)) (format : value -> text).
Context (get : utils.request value -> utils.http_outcome value).
Context (open_wb : text -> bool) (unpaywall_email : option text).
Context (get_article get_pdf : utils.request value -> option (utils.http_outcome value)).
Context (error_text : utils.request value -> text).
Context (write_fails : text -> list N -> option nat).
Context (confirm : option bool) (makedirs_ok : bool) (sep : text).

Local Abbreviation list_ := (cli.list_ value truth format).
Local Abbreviation open_article := (cli.open_article value format).
Local Abbreviation download_pdf :=
  (utils.download_pdf value truth as_dict format get open_wb unpaywall_email
     get_article get_pdf error_text write_fails).
Local Abbreviation download :=
  (cli.download value truth as_dict format get open_wb unpaywall_email
     get_article get_pdf error_text write_fails confirm makedirs_ok sep).
Local Abbreviation article_line := (cli.article_line value truth format).
Local Abbreviation echo := (cli.echo value).

Lemma in_range_index {A} (l : list A) (i : Z) :
  (i >? Z.of_nat (length l)) || (i <? 1) = false ->
  exists x, py_index l (i - 1) = Some x /\ (i, x) ∈ enumerate 1 l.
Proof.
  intros [Hhigh Hlow]%orb_false_iff.
  rewrite Z.gtb_ltb in Hhigh. apply Z.ltb_ge in Hhigh. apply Z.ltb_ge in Hlow.
  destruct (py_index_is_Some l (i - 1)) as [x Hx]; [lia|].
  exists x. split; [done|]. apply elem_of_enumerate. split; [done|].
  unfold py_index in Hx. by destruct (Z.leb_spec 0 (i - 1)); [|lia].
Qed.

Lemma in_range_lookup {A} (l : list A) (i : Z) (x : A) :
  1 <= i -> py_index l (i - 1) = Some x -> l !! Z.to_nat (i - 1) = Some x.
Proof. intros Hi. unfold py_index. by destruct (Z.leb_spec 0 (i - 1)); [|lia]. Qed.

(** [open_article] and [download] accept exactly the numbers that
    [list] prints, 1 to the number of articles: any other number gives
    the not-found message and nothing else. A number in range selects
    the article that [enumerate(articles, 1)] pairs with it,
    [articles[article_id - 1]] being never out of range nor counted from
    the end: [open_article] opens the URL of that article, and [download]
    makes the directory and then does what [download_pdf] does with the
    URL and the DOI of that article and the path
    [downloads/article_<id>.pdf], ending as that call ends. *)
Theorem article_id_selects (article_id : Z) (w : cli.world value)
    (articles : list (gmap string value)) :
  cli.articles_file w = Some articles ->
  let not_found :=
    echo (str "Article with ID " ++ str_of_int article_id ++ str " not found.") w in
  let save_path :=
    cli.DOWNLOADS_DIR ++ sep ++ (str "article_" ++ str_of_int article_id ++ str ".pdf") in
  (open_article article_id w).2 <> utils.raises utils.IndexError /\
  (download article_id w).2 <> cli.raised utils.IndexError /\
  (article_id < 1 \/ Z.of_nat (length articles) < article_id ->
   open_article article_id w = (not_found, utils.returns tt) /\
   download article_id w = (not_found, [], cli.returned)) /\
  (1 <= article_id <= Z.of_nat (length articles) ->
   exists article,
     articles !! Z.to_nat (article_id - 1) = Some article /\
     (article_id, article) ∈ enumerate 1 articles /\
     open_article article_id w =
     match article !! "URL" with
     | Some url =>
         (echo (str "Opened article URL: " ++ format url) (cli.webbrowser_open value url w),
          utils.returns tt)
     | None => (w, utils.raises utils.KeyError)
     end /\
     (makedirs_ok = false -> download article_id w = (w, [], cli.raised utils.OSError)) /\
     (makedirs_ok = true -> article !! "URL" = None ->
      download article_id w = (w, [cli.makedirs cli.DOWNLOADS_DIR], cli.raised utils.KeyError)) /\
     (makedirs_ok = true ->
      forall url, article !! "URL" = Some url ->
      let '(events, files', success) :=
        download_pdf url save_path (article !! "DOI") (cli.files w) in
      (download article_id w).1.2 =
      cli.makedirs cli.DOWNLOADS_DIR :: (cli.of_download_pdf <$> events) /\
      cli.files (download article_id w).1.1 = files' /\
      (download article_id w).2 =
      match success with
      | utils.fails f => cli.raised_in_download_pdf f
      | utils.completes true => cli.returned
      | utils.completes false =>
          match confirm with
          | Some _ => cli.returned
          | None => cli.aborted
          end
      end)).
Proof.
  intros Hfile not_found save_path. split_and!.
  - unfold cli.open_article. rewrite Hfile.
    destruct (_ || _) eqn:Hrange; [done|].
    destruct (in_range_index articles article_id Hrange) as (article & -> & _).
    by destruct (article !! "URL").
  - unfold cli.download. rewrite Hfile.
    destruct (_ || _) eqn:Hrange; [done|].
    destruct (in_range_index articles article_id Hrange) as (article & -> & _).
    destruct makedirs_ok; cbn [negb]; [|done].
    destruct (article !! "URL") as [url|]; [|done].
    destruct (utils.download_pdf _ _ _ _ _ _ _ _ _ _ _ _ _ _ _) as [[events files'] [[|]|f]];
      [done| |done].
    by destruct confirm as [[|]|].
  - intros Hout. unfold cli.open_article, cli.download. rewrite Hfile.
    assert ((article_id >? Z.of_nat (length articles)) || (article_id <? 1) = true) as ->;
      [|done].
    apply orb_true_iff. destruct Hout as [Hlow|Hhigh].
    + right. by apply Z.ltb_lt.
    + left. rewrite Z.gtb_ltb. by apply Z.ltb_lt.
  - intros Hin. unfold cli.open_article, cli.download. rewrite Hfile.
    assert ((article_id >? Z.of_nat (length articles)) || (article_id <? 1) = false)
      as Hrange.
    { apply orb_false_iff. split; [rewrite Z.gtb_ltb|]; apply Z.ltb_ge; lia. }
    rewrite Hrange.
    destruct (in_range_index articles article_id Hrange) as (article & Hindex & Hnumbered).
    rewrite Hindex. exists article.
    split; [apply in_range_lookup; [lia|done]|]. split; [done|].
    split; [by destruct (article !! "URL")|].
    split_and!.
    + by intros ->.
    + by intros -> ->.
    + intros -> url ->. cbn [negb]. fold save_path.
      destruct (utils.download_pdf _ _ _ _ _ _ _ _ _ _ _ _ _ _ _) as [[events files'] [[|]|f]];
        [done| |done].
      by destruct confirm as [[|]|].
Qed.

Lemma echo_articles_lines (numbered : list (Z * gmap string value)) (w : cli.world value) :
  Forall (fun p => is_Some (p.2 !! "title") /\ is_Some (p.2 !! "authors")) numbered ->
  exists lines,
    cli.echo_articles value truth format numbered w =
    ({| cli.articles_file := cli.articles_file w; cli.files := cli.files w;
        cli.out := cli.out w ++ lines; cli.opened := cli.opened w |}, utils.returns tt) /\
    Forall2 (fun p line_ =>
               article_line p.1 p.2 = utils.returns line_ /\
               exists rest, line_ = str_of_int p.1 ++ str ": " ++ rest)
            numbered lines.
Proof.
  intros Hkeys. revert w. induction Hkeys as [|[idx article] rest [[t Ht] [a Ha]] _ IH];
    intros w.
  - exists []. split; [|constructor]. destruct w. cbn. by rewrite app_nil_r.
  - cbn [fst snd] in Ht, Ha. cbn [cli.echo_articles].
    assert (exists line_, article_line idx article = utils.returns line_ /\
                          exists r, line_ = str_of_int idx ++ str ": " ++ r)
      as (line_ & Hline & Hprefix).
    { unfold cli.article_line. rewrite Ht, Ha. eexists. split; [done|]. by eexists. }
    rewrite Hline. destruct (IH (echo line_ w)) as (lines & -> & Hlines).
    exists (line_ :: lines). split.
    + cbn. by rewrite <- app_assoc.
    + by constructor.
Qed.

(** When every article has a title and authors, [list] prints the
    heading and then one line for each article, in the order of the
    file, the line of the k-th article starting with [k: ]; it prints a
    single message when the list is empty, and touches neither the files
    nor the browser. *)
Theorem list_numbers_articles (w : cli.world value) (articles : list (gmap string value)) :
  cli.articles_file w = Some articles ->
  (forall article, article ∈ articles ->
                   is_Some (article !! "title") /\ is_Some (article !! "authors")) ->
  exists lines,
    list_ w =
    ({| cli.articles_file := cli.articles_file w; cli.files := cli.files w;
        cli.out := cli.out w ++
                   match articles with
                   | [] => [str "No articles found in the current search."]
                   | _ :: _ => str "Articles:" :: lines
                   end;
        cli.opened := cli.opened w |}, utils.returns tt) /\
    Forall2 (fun p line_ =>
               article_line p.1 p.2 = utils.returns line_ /\
               exists rest, line_ = str_of_int p.1 ++ str ": " ++ rest)
            (enumerate 1 articles) lines.
Proof.
  intros Hfile Hkeys. unfold cli.list_. rewrite Hfile.
  destruct articles as [|article articles].
  { exists []. split; [|constructor]. unfold cli.echo. by rewrite Hfile. }
  destruct (echo_articles_lines (enumerate 1 (article :: articles))
              (echo (str "Articles:") w)) as (lines & Hecho & Hlines).
  { apply Forall_forall. intros [idx a] [_ Ha%list_elem_of_lookup_2]%elem_of_enumerate.
    by apply Hkeys. }
  exists lines. split; [|done]. rewrite Hecho. cbn. by rewrite Hfile, <- app_assoc.
Qed.

Ltac other_line :=
  let Heq := fresh in
  let Hlen := fresh in
  intros Heq; pose proof (f_equal length Heq) as Hlen;
  rewrite ?length_app in Hlen; cbn [length] in Hlen; try lia;
  apply app_inv_head in Heq;
  apply (f_equal (fun l : list text => take 9 <$> head l)) in Heq;
  vm_compute in Heq; discriminate Heq.

(** [download] leaves [articles.json] alone and touches no file but
    [downloads/article_<id>.pdf] and, by the records of [download_pdf],
    the log; outside the console and the browser it does nothing, or
    makes the directory and then does what [download_pdf] does. It
    reports the download only when the file holds, in full, the body of
    an answer without error status. When it does not report it, no file
    has changed, but for a failed write, which leaves a part of the body
    in the file and no line on the console. An error
    raised leaves no line and no page opened. The browser is opened only
    when the download failed and the user agreed, and then on the URL of
    the selected article; without an answer to the question the command
    is aborted after the line on the failure. *)
Theorem download_command (article_id : Z) (w : cli.world value) :
  let save_path :=
    cli.DOWNLOADS_DIR ++ sep ++ (str "article_" ++ str_of_int article_id ++ str ".pdf") in
  let downloaded := str "Article downloaded to " ++ save_path in
  let failure :=
    str "Failed to download the PDF. You can open the article's webpage instead." in
  let '(w', effects, ending) := download article_id w in
  cli.articles_file w' = cli.articles_file w /\
  (forall path, path <> save_path -> path <> utils.log_file ->
                cli.files w' !! path = cli.files w !! path) /\
  (effects = [] \/
   exists events, effects = cli.makedirs cli.DOWNLOADS_DIR :: (cli.of_download_pdf <$> events)) /\
  (cli.out w' = cli.out w ++ [downloaded] ->
   ending = cli.returned /\ cli.opened w' = cli.opened w /\
   exists r response,
     (get_article r = Some (utils.http_response response) \/
      get_pdf r = Some (utils.http_response response)) /\
     utils.status_ok response = true /\
     cli.files w' = <[save_path := utils.content response]> (cli.files w)) /\
  (cli.out w' <> cli.out w ++ [downloaded] ->
   cli.files w' = cli.files w \/
   ending = cli.raised_in_download_pdf utils.failed_write /\
   exists body n, cli.files w' = <[save_path := take n body]> (cli.files w)) /\
  (ending <> cli.returned -> ending <> cli.aborted ->
   cli.out w' = cli.out w /\ cli.opened w' = cli.opened w) /\
  (cli.opened w' = cli.opened w \/
   confirm = Some true /\ cli.files w' = cli.files w /\ ending = cli.returned /\
   exists articles article url,
     cli.articles_file w = Some articles /\
     (article_id, article) ∈ enumerate 1 articles /\
     article !! "URL" = Some url /\
     cli.opened w' = cli.opened w ++ [url] /\
     cli.out w' =
     cli.out w ++ [failure; str "Opened the article URL in your default web browser."]) /\
  (ending = cli.aborted ->
   confirm = None /\ cli.files w' = cli.files w /\ cli.opened w' = cli.opened w /\
   cli.out w' = cli.out w ++ [failure]).
Proof.
  intros save_path downloaded failure. unfold cli.download. fold save_path.
  destruct (cli.articles_file w) as [articles|] eqn:Hfile.
  2:{ cbn [cli.echo cli.webbrowser_open cli.articles_file cli.files cli.out cli.opened].
      split_and!; [done|done|by left|other_line|by left|done|by left|done]. }
  destruct (_ || _) eqn:Hrange.
  { cbn [cli.echo cli.webbrowser_open cli.articles_file cli.files cli.out cli.opened].
    split_and!; [done|done|by left|other_line|by left|done|by left|done]. }
  destruct (in_range_index articles article_id Hrange) as (article & -> & Hnumbered).
  destruct makedirs_ok; cbn [negb].
  2:{ split_and!; [done|done|by left|other_line|by left|done|by left|done]. }
  destruct (article !! "URL") as [url|] eqn:Hurl.
  2:{ split_and!; [done|done|right; by exists []|other_line|by left|done|by left|done]. }
  pose proof (download_pdf_files truth as_dict format get open_wb unpaywall_email
                get_article get_pdf error_text write_fails
                url save_path (article !! "DOI") (cli.files w)) as Hfiles.
  destruct (utils.download_pdf _ _ _ _ _ _ _ _ _ _ _ _ _ _ _) as [[events files'] [[|]|f]];
    cbn [cli.echo cli.webbrowser_open cli.articles_file cli.files cli.out cli.opened].
  - destruct Hfiles as (r & response & Hanswer & Hok & ->).
    split_and!; [done|intros path Hpath _; by rewrite lookup_insert_ne
                |right; by exists events| |done|done|by left|done].
    intros _. split_and!; [done..|]. by exists r, response.
  - subst files'. destruct confirm as [[|]|];
      cbn [cli.echo cli.webbrowser_open cli.articles_file cli.files cli.out cli.opened].
    + split_and!; [done|done|right; by exists events|other_line|by left|done| |done].
      right. split_and!; [done..|]. exists articles, article, url.
      split_and!; [done..|]. by rewrite <- app_assoc.
    + split_and!; [done|done|right; by exists events|other_line|by left|done|by left|done].
    + split_and!; [done|done|right; by exists events|other_line|by left|done|by left|done].
  - destruct f as [e| | |].
    + subst files'.
      split_and!; [done|done|right; by exists events|other_line|by left|done|by left|done].
    + subst files'.
      split_and!; [done|done|right; by exists events|other_line|by left|done|by left|done].
    + subst files'.
      split_and!; [done|done|right; by exists events|other_line|by left|done|by left|done].
    + destruct Hfiles as (body & n & ->).
      split_and!; [done|intros path Hpath _; by rewrite lookup_insert_ne
                  |right; by exists events|other_line| |done|by left|done].
      intros _. right. split; [done|]. by exists body, n.
Qed.

End CommandFacts.

(** ** Further theorems at concrete inputs *)

(** Line 6 of the six sample lines keeps its warning when a guard is
    appended as a seventh line. *)
Lemma findings_beyond_window_stable_witness :
  let f := division_issue 6 (str "b") in
  let more := str "if b > 0: pass" in
  5 < line f <= Z.of_nat (length (split_lines six_lines)) /\
  exists found,
    emitted (_check_division_operations ascii_only (split_lines (six_lines ++ nl ++ more)))
    = Some found /\
    f ∈ found.
Proof.
  intros f more.
  assert (Hline : 5 < line f <= Z.of_nat (length (split_lines six_lines)))
    by (vm_compute; split; [reflexivity|discriminate]).
  split; [exact Hline|].
  destruct (findings_beyond_window_stable ascii_only six_lines more f empty_store Hline)
    as (d & d' & _ & _ & _ & _ & _ & _ & Hd & Hd' & _ & _ & _ & _ & _ & _ & Hiff & _).
  exists d'. split; [exact Hd'|]. apply Hiff.
  assert (Hsix : emitted (_check_division_operations ascii_only (split_lines six_lines))
                 = Some [f]) by (vm_compute; reflexivity).
  rewrite Hsix in Hd. injection Hd as <-. left.
Defined.

(** An article page that is no PDF, with an open-access copy known to
    Unpaywall: with an empty DOI the copy plays no part and nothing is
    saved; with a DOI the copy is saved. *)
Lemma download_pdf_without_doi_witness :
  let truth := fun v : text => bool_decide (v <> []) in
  let as_dict := fun v : text =>
    if bool_decide (v = str "data")
    then Some ({[ "is_oa"%string := str "true";
                  "best_oa_location"%string := str "location" ]} : gmap string text)
    else if bool_decide (v = str "location")
    then Some ({[ "url_for_pdf"%string := str "https://example.org/a.pdf" ]} : gmap string text)
    else None in
  let get := fun _ : utils.request text =>
    utils.http_response {| utils.status_ok := true; utils.content_type := None;
                           utils.content := []; utils.json := Some (str "data") |} in
  let get_article := fun _ : utils.request text =>
    Some (utils.http_response
            {| utils.status_ok := true; utils.content_type := Some (str "text/html");
               utils.content := [60%N]; utils.json := None |}) in
  let get_pdf := fun _ : utils.request text =>
    Some (utils.http_response
            {| utils.status_ok := true; utils.content_type := Some (str "application/pdf");
               utils.content := [37%N; 80%N; 68%N; 70%N]; utils.json := None |}) in
  let run := fun get' get_pdf' doi =>
    utils.download_pdf text truth as_dict id get' (fun _ => true) None
      get_article get_pdf' (fun _ => []) (fun _ _ => None)
      (str "https://example.org/a") (str "downloads/article_1.pdf") doi ∅ in
  utils.truthy text truth (Some []) = false /\
  (forall get' get_pdf', run get' get_pdf' (Some []) = run get get_pdf (Some [])) /\
  (run get get_pdf (Some [])).2 = utils.completes false /\
  (run get get_pdf (Some (str "10.1000/x"))).2 = utils.completes true.
Proof.
  intros truth as_dict get get_article get_pdf run.
  split; [reflexivity|].
  pose proof (download_pdf_without_doi truth as_dict id get (fun _ => true) None
                get_article get_pdf (fun _ => []) (fun _ _ => None)
                (str "https://example.org/a") (str "downloads/article_1.pdf")
                (Some []) ∅ eq_refl) as Hrun.
  cbv zeta in Hrun. fold (run get get_pdf (Some [])) in Hrun.
  destruct (run get get_pdf (Some [])) as [[events files'] result] eqn:Hresult.
  destruct Hrun as (Hsame & _ & _ & _).
  split; [exact Hsame|]. split; [|vm_compute; reflexivity].
  vm_compute in Hresult. injection Hresult as _ _ <-. reflexivity.
Defined.

(** The second of two articles: [open_article 2] opens its URL. *)
Lemma article_id_selects_witness :
  let first : gmap string text := {[ "URL"%string := str "https://example.org/1" ]} in
  let second : gmap string text := {[ "URL"%string := str "https://example.org/2" ]} in
  let w := {| cli.articles_file := Some [first; second]; cli.files := ∅;
              cli.out := []; cli.opened := [] |} in
  cli.articles_file w = Some [first; second] /\
  cli.opened (cli.open_article text id 2 w).1 = [str "https://example.org/2"].
Proof.
  intros first second w. split; [reflexivity|].
  destruct (article_id_selects (fun v : text => bool_decide (v <> [])) (fun _ => None) id
              (fun _ => utils.http_raises) (fun _ => true) None
              (fun _ => None) (fun _ => None) (fun _ => []) (fun _ _ => None)
              None true (str "/") 2 w [first; second] eq_refl)
    as (_ & _ & _ & Hin).
  destruct (Hin ltac:(simpl; lia)) as (article & Hlookup & _ & Hopen & _).
  change (Some second = Some article) in Hlookup. injection Hlookup as <-.
  rewrite Hopen. vm_compute. reflexivity.
Defined.

(** [list] on a file with one article. *)
Lemma list_numbers_articles_witness :
  let truth := fun v : text => bool_decide (v <> []) in
  let article : gmap string text :=
    {[ "title" := str "Momentum"; "authors" := str "A. Author" ]} in
  let w := {| cli.articles_file := Some [article]; cli.files := ∅;
              cli.out := []; cli.opened := [] |} in
  cli.articles_file w = Some [article] /\
  exists lines,
    (cli.list_ text truth id w).2 = utils.returns tt /\
    cli.out (cli.list_ text truth id w).1 = str "Articles:" :: lines /\
    length lines = 1%nat.
Proof.
  intros truth article w. split; [reflexivity|].
  destruct (list_numbers_articles truth id w [article] eq_refl) as (lines & Hlist & Hlines).
  { intros a Ha%list_elem_of_singleton. subst a.
    split; eexists; vm_compute; reflexivity. }
  exists lines. rewrite Hlist. split; [reflexivity|]. split; [reflexivity|].
  apply Forall2_length in Hlines. symmetry. exact Hlines.
Defined.
